(** * obsidian-git: the synchronisation coordinator of [src/main.ts]

    A shallow embedding of the [ObsidianGit] plugin class: its fields
    become a record, its asynchronous methods become computations in a
    state-and-rejection monad whose external collaborators (the git
    driver, the vault, the workspace, timers) are answered by an
    environment that may depend on everything that has happened so far.
    Every call that leaves the class is recorded as an event, so that
    statements can speak about what a run of a workflow did. *)

From Stdlib Require Import ZArith List Bool Ascii String Lia.
From stdpp Require Import base strings pretty.
Import ListNotations.

Local Open Scope Z_scope.
Local Open Scope string_scope.
Local Open Scope list_scope.

(** ** Data model *)

Module Types.

(** [ObsidianGitSettings], with the fields [DEFAULT_SETTINGS] lists. *)
Record ObsidianGitSettings := {
  commitMessage : string;
  commitDateFormat : string;
  autoSaveInterval : Z;
  autoPullInterval : Z;
  autoPullOnBoot : bool;
  disablePush : bool;
  pullBeforePush : bool;
  disablePopups : bool;
  listChangedFilesInMessageBody : bool;
  standaloneMode : bool;
  proxyURL : string
}.

Definition DEFAULT_SETTINGS : ObsidianGitSettings := {|
  commitMessage := "vault backup: {{date}}";
  commitDateFormat := "YYYY-MM-DD HH:mm:ss";
  autoSaveInterval := 0;
  autoPullInterval := 0;
  autoPullOnBoot := false;
  disablePush := false;
  pullBeforePush := true;
  disablePopups := false;
  listChangedFilesInMessageBody := false;
  standaloneMode := false;
  proxyURL := ""
|}.

(** Modelled from the spec: the [PluginState] enum of [./types], which is
    not under src/.  The source names [idle] and [conflicted]; the
    in-progress states are those of the spec's state machine. *)
Inductive PluginState := idle | pulling | committing | pushing | conflicted.

(** The two drivers [init] chooses between; [instanceof SimpleGit] is a
    test on this tag. *)
Inductive BackendKind := SimpleGit | IsomorphicGit.

Definition instanceof_SimpleGit (gm : option BackendKind) : bool :=
  match gm with Some SimpleGit => true | _ => false end.

Record RepositoryStatus := {
  changed : list string;
  conflicted_files : list string
}.

Record BranchInfo := {
  current : string;
  remote : option string
}.

(** What [getAbstractFileByPath] hands back: a file, a folder, or null;
    [instanceof TFile] is a test on the constructor. *)
Inductive TAbstractFile := TFile (path : string) | TFolder (path : string).

(** The closures the class hands to the promise queue and to timers. *)
Inductive Task := TaskPull | TaskBackup (fromAutoBackup : bool).

(** An awaited call either resolves with a value or rejects. *)
Inductive Outcome (A : Type) := Resolved (a : A) | Rejected (err : string).
Arguments Resolved {A} a.
Arguments Rejected {A} err.

(** The three places where [createBackup] asks for the status, and the
    one in [pullChangesFromRemote]; a label on the recorded event, which
    the environment does not see. *)
Inductive StatusSite := ConflictCheck | ChangedQuery | PrePushCheck | PostPullCheck.

Inductive Event :=
| EvNewBackend (k : BackendKind)
| EvCheckRequirements (r : Outcome string)
| EvStatus (site : StatusSite) (r : Outcome RepositoryStatus)
| EvPull (r : Outcome Z)
| EvPush (r : Outcome Z)
| EvCommitAll (message : option string) (r : Outcome Z)
| EvBranchInfo (r : Outcome BranchInfo)
| EvCanPush (r : Outcome bool)
| EvNotice (message : string)
| EvConsoleLog (message : string)
| EvStatusBarMessage (message : string) (timeout : Z)
| EvStatusBarDisplay (shown : PluginState)
| EvVaultDelete (file : option TAbstractFile) (r : Outcome unit)
| EvAdapterWrite (path text : string) (r : Outcome unit)
| EvOpenLinkText (linktext sourcePath : string) (newLeaf : bool)
| EvSetInterval (task : Task) (ms : Z) (id : Z)
| EvRegisterInterval (id : Z).

Definition History := list Event.

(** The external collaborators.  Each answer may depend on the whole
    history, so every sequence of answers is the behaviour of some
    environment.  An answer is a value and nothing more: what a driver
    itself writes to the plugin it was built with, such as the transient
    states of the spec's state machine, is not in the model. *)
Record Env := {
  env_checkRequirements : History -> BackendKind -> Outcome string;
  env_status : History -> BackendKind -> Outcome RepositoryStatus;
  env_pull : History -> BackendKind -> Outcome Z;
  env_push : History -> BackendKind -> Outcome Z;
  env_commitAll : History -> BackendKind -> option string -> Outcome Z;
  env_branchInfo : History -> BackendKind -> Outcome BranchInfo;
  env_canPush : History -> BackendKind -> Outcome bool;
  env_getAbstractFileByPath : History -> string -> option TAbstractFile;
  env_fileToLinktext : History -> TAbstractFile -> string -> string;
  env_vault_delete : History -> option TAbstractFile -> Outcome unit;
  env_adapter_write : History -> string -> string -> Outcome unit;
  env_leaves : History -> list string;
  env_setInterval : History -> Z
}.

(** The fields of the [ObsidianGit] class.  [statusBar] is installed by
    [onload] exactly when the app is not mobile, before any workflow can
    run, so the one flag [isMobile] stands for both. *)
Record Plugin := {
  gitManager : option BackendKind;
  settings : ObsidianGitSettings;
  state : option PluginState;
  intervalIDBackup : option Z;
  intervalIDPull : option Z;
  gitReady : bool;
  promiseQueue : list Task;
  isMobile : bool
}.

Definition conflictOutputFile : string := "conflict-files-obsidian-git.md".

End Types.
Export Types.

(** ** Field updates *)

Definition set_gitManager (k : BackendKind) (p : Plugin) : Plugin :=
  {| gitManager := Some k; settings := settings p; state := state p;
     intervalIDBackup := intervalIDBackup p; intervalIDPull := intervalIDPull p;
     gitReady := gitReady p; promiseQueue := promiseQueue p; isMobile := isMobile p |}.

Definition set_state (s : PluginState) (p : Plugin) : Plugin :=
  {| gitManager := gitManager p; settings := settings p; state := Some s;
     intervalIDBackup := intervalIDBackup p; intervalIDPull := intervalIDPull p;
     gitReady := gitReady p; promiseQueue := promiseQueue p; isMobile := isMobile p |}.

Definition set_gitReady (b : bool) (p : Plugin) : Plugin :=
  {| gitManager := gitManager p; settings := settings p; state := state p;
     intervalIDBackup := intervalIDBackup p; intervalIDPull := intervalIDPull p;
     gitReady := b; promiseQueue := promiseQueue p; isMobile := isMobile p |}.

Definition set_intervalIDBackup (id : Z) (p : Plugin) : Plugin :=
  {| gitManager := gitManager p; settings := settings p; state := state p;
     intervalIDBackup := Some id; intervalIDPull := intervalIDPull p;
     gitReady := gitReady p; promiseQueue := promiseQueue p; isMobile := isMobile p |}.

Definition set_intervalIDPull (id : Z) (p : Plugin) : Plugin :=
  {| gitManager := gitManager p; settings := settings p; state := state p;
     intervalIDBackup := intervalIDBackup p; intervalIDPull := Some id;
     gitReady := gitReady p; promiseQueue := promiseQueue p; isMobile := isMobile p |}.

(** Modelled from the spec: [PromiseQueue.addTask] of [./promiseQueue],
    which is not under src/.  The queue keeps an ordered sequence of
    producers, its head being the one that runs.  A queue that is running
    only appends what is enqueued: that is the case of every workflow this
    class enqueues, which is itself the running head when it calls [init].
    A queue at rest ([init] called from [onload], or from the command that
    lists the changed files while nothing else runs) begins to execute
    what is enqueued at once; that execution is not in the model, which
    has the append only.  [enqueue_waits] below says that it does not take
    place. *)
Definition push_task (t : Task) (p : Plugin) : Plugin :=
  {| gitManager := gitManager p; settings := settings p; state := state p;
     intervalIDBackup := intervalIDBackup p; intervalIDPull := intervalIDPull p;
     gitReady := gitReady p; promiseQueue := promiseQueue p ++ [t];
     isMobile := isMobile p |}.

(** ** Strings *)

(** [String.prototype.toLowerCase] on the ASCII letters, which is all the
    messages of this class contain. *)
Definition lower_ascii (c : ascii) : ascii :=
  let n := nat_of_ascii c in
  if (Nat.leb 65 n && Nat.leb n 90)%bool then ascii_of_nat (n + 32) else c.

Fixpoint toLowerCase (s : string) : string :=
  match s with
  | EmptyString => EmptyString
  | String c s' => String (lower_ascii c) (toLowerCase s')
  end.

(** A count interpolated in a template literal: its decimal digits, as
    JavaScript prints every integer a file count can be. *)
Definition numToString (n : Z) : string := pretty n.

Definition nl : string := String (ascii_of_nat 10) EmptyString.

(** [Array.prototype.join]. *)
Definition join (sep : string) (l : list string) : string := String.concat sep l.

(** [s.startsWith(t)]. *)
Definition startsWith (s t : string) : bool := String.prefix t s.

Arguments toLowerCase : simpl never.
Arguments numToString : simpl never.
Arguments join : simpl never.
Arguments startsWith : simpl never.

(** ** The monad of workflow bodies *)

Section Coordinator.

Variable E : Env.

(** A computation reads the history so far and the plugin, and gives an
    outcome, the plugin afterwards and the events it added. *)
Definition M (A : Type) : Type := History -> Plugin -> Outcome A * Plugin * list Event.

Definition ret {A} (a : A) : M A := fun _ p => (Resolved a, p, []).

Definition bind {A B} (m : M A) (f : A -> M B) : M B :=
  fun h p =>
    match m h p with
    | (Resolved a, p1, ev1) =>
        match f a (h ++ ev1) p1 with
        | (r, p2, ev2) => (r, p2, ev1 ++ ev2)
        end
    | (Rejected e, p1, ev1) => (Rejected e, p1, ev1)
    end.

Notation "x <- m ;; k" := (bind m (fun x => k))
  (at level 100, m at next level, right associativity).
Notation "m ;; k" := (bind m (fun _ => k))
  (at level 100, right associativity).

Definition get {A} (f : Plugin -> A) : M A := fun _ p => (Resolved (f p), p, []).
Definition modify (g : Plugin -> Plugin) : M unit := fun _ p => (Resolved tt, g p, []).
Definition emit (e : Event) : M unit := fun _ p => (Resolved tt, p, [e]).
Definition throw {A} (err : string) : M A := fun _ p => (Rejected err, p, []).

(** A synchronous question to the host that changes nothing. *)
Definition query {A} (q : History -> A) : M A := fun h p => (Resolved (q h), p, []).

(** An awaited call to a collaborator, recorded with its outcome. *)
Definition call {A} (q : History -> Outcome A) (ev : Outcome A -> Event) : M A :=
  fun h p => (q h, p, [ev (q h)]).

(** A method call on [this.gitManager]; on [undefined] it is a TypeError. *)
Definition on_gitManager {A} (q : History -> BackendKind -> Outcome A)
    (ev : Outcome A -> Event) : M A :=
  gm <- get gitManager ;;
  match gm with
  | Some k => call (fun h => q h k) ev
  | None => throw "TypeError: this.gitManager is undefined"
  end.

(** An [async] method called without [await]: it runs, and what it
    rejects with never reaches the caller.  Its events after its first
    suspension point happen once the caller has returned; every caller in
    this class returns right after the call. *)
Definition detached (m : M unit) : M unit :=
  fun h p => match m h p with (_, p1, ev1) => (Resolved tt, p1, ev1) end.

Definition when (b : bool) (m : M unit) : M unit := if b then m else ret tt.

(** ** The methods of [ObsidianGit] *)

Definition setState (s : PluginState) : M unit :=
  modify (set_state s) ;;
  mobile <- get isMobile ;;
  when (negb mobile) (emit (EvStatusBarDisplay s)).

Definition displayMessage (message : string) (timeout : Z) : M unit :=
  mobile <- get isMobile ;;
  when (negb mobile) (emit (EvStatusBarMessage (toLowerCase message) timeout)) ;;
  noPopups <- get (fun p => disablePopups (settings p)) ;;
  when (negb noPopups) (emit (EvNotice message)) ;;
  emit (EvConsoleLog ("git obsidian message: " +:+ message)).

Definition displayMessage_default_timeout : Z := 4 * 1000.

Definition displayError (message : string) (timeout : Z) : M unit :=
  emit (EvNotice message) ;;
  emit (EvConsoleLog ("git obsidian error: " +:+ message)) ;;
  mobile <- get isMobile ;;
  when (negb mobile) (emit (EvStatusBarMessage (toLowerCase message) timeout)).

Definition enableAutoBackup : M unit :=
  minutes <- get (fun p => autoSaveInterval (settings p)) ;;
  id <- query (env_setInterval E) ;;
  emit (EvSetInterval (TaskBackup true) (minutes * 60000) id) ;;
  modify (set_intervalIDBackup id) ;;
  emit (EvRegisterInterval id).

Definition enableAutoPull : M unit :=
  minutes <- get (fun p => autoPullInterval (settings p)) ;;
  id <- query (env_setInterval E) ;;
  emit (EvSetInterval TaskPull (minutes * 60000) id) ;;
  modify (set_intervalIDPull id) ;;
  emit (EvRegisterInterval id).

(** The body of [case "valid":] in [init], which [case "wrong-settings":]
    runs into as well. *)
Definition init_case_valid : M unit :=
  modify (set_gitReady true) ;;
  setState idle ;;
  onBoot <- get (fun p => autoPullOnBoot (settings p)) ;;
  when onBoot (modify (push_task TaskPull)) ;;
  save <- get (fun p => autoSaveInterval (settings p)) ;;
  when (0 <? save)%Z enableAutoBackup ;;
  pull <- get (fun p => autoPullInterval (settings p)) ;;
  when (0 <? pull)%Z enableAutoPull.

Definition init : M unit :=
  standalone <- get (fun p => (standaloneMode (settings p) || isMobile p)%bool) ;;
  (let k := if standalone then IsomorphicGit else SimpleGit in
   emit (EvNewBackend k) ;; modify (set_gitManager k)) ;;
  result <- on_gitManager (env_checkRequirements E) EvCheckRequirements ;;
  if String.eqb result "missing-git" then
    displayError "Cannot run git command" 0
  else if String.eqb result "missing-repo" then
    displayError "Valid git repository not found" 0
  else if String.eqb result "wrong-settings" then
    displayError "Not all of the required standalone mode settings are set" 0 ;;
    init_case_valid
  else if String.eqb result "valid" then
    init_case_valid
  else
    emit (EvConsoleLog
            ("Something weird happened. The 'checkRequirements' result is " +:+ result)).

(** The entry of every workflow: try [init] when not yet ready, and do
    nothing when still not ready. *)
Definition when_ready (body : M unit) : M unit :=
  ready <- get gitReady ;;
  when (negb ready) init ;;
  ready <- get gitReady ;;
  if negb ready then ret tt else body.

(** [pullChangesFromRemote], from the call of [pull] on. *)
Definition pullChangesFromRemote_ready : M unit :=
  filesUpdated <- on_gitManager (env_pull E) EvPull ;;
  (if (0 <? filesUpdated)%Z then
     displayMessage ("Pulled new changes. " +:+ numToString filesUpdated +:+ " files updated")
       displayMessage_default_timeout
   else
     displayMessage "Everything is up-to-date" displayMessage_default_timeout) ;;
  gm <- get gitManager ;;
  when (instanceof_SimpleGit gm)
    (status <- on_gitManager (env_status E) (EvStatus PostPullCheck) ;;
     let n := Z.of_nat (length (conflicted_files status)) in
     when (0 <? n)%Z
       (displayError ("You have " +:+ numToString n +:+ " conflict files") 0)) ;;
  setState idle.

Definition pullChangesFromRemote : M unit := when_ready pullChangesFromRemote_ready.

(** One line of the conflict report for the path [e]. *)
Definition conflict_bullet (h : History) (e : string) : string :=
  match env_getAbstractFileByPath E h e with
  | Some (TFile f) => "- [[" +:+ env_fileToLinktext E h (TFile f) "/" +:+ "]]"
  | _ => "- Not a file: " +:+ e
  end.

Definition conflict_lines (h : History) (paths : list string) : list string :=
  [ "# Conflict files";
    "Please resolve them and commit per command (This file will be deleted before the commit)." ]
  ++ map (conflict_bullet h) paths.

Definition writeAndOpenFile (text : string) : M unit :=
  call (fun h => env_adapter_write E h conflictOutputFile text)
       (EvAdapterWrite conflictOutputFile text) ;;
  leaves <- query (env_leaves E) ;;
  let fileIsAlreadyOpened :=
    existsb (fun t => negb (String.eqb t "") && startsWith conflictOutputFile t)%bool leaves in
  when (negb fileIsAlreadyOpened) (emit (EvOpenLinkText conflictOutputFile "/" true)).

Definition handleConflict (paths : list string) : M unit :=
  setState conflicted ;;
  lines <- query (fun h => conflict_lines h paths) ;;
  detached (writeAndOpenFile (join nl lines)).

(** [!x] on an optional string: [undefined] and the empty string are falsy. *)
Definition falsy (x : option string) : bool :=
  match x with
  | None => true
  | Some s => String.eqb s ""
  end.

(** [createBackup], from the query of the changed files on. *)
Definition createBackup_commit_push (commitMessage : option string) : M unit :=
  st <- on_gitManager (env_status E) (EvStatus ChangedQuery) ;;
  let changedFiles := changed st in
  (if negb (Nat.eqb (length changedFiles) 0) then
     commitedFiles <- on_gitManager (fun h k => env_commitAll E h k commitMessage)
                        (EvCommitAll commitMessage) ;;
     displayMessage ("Committed " +:+ numToString commitedFiles +:+ " files")
       displayMessage_default_timeout
   else
     displayMessage "No changes to commit" displayMessage_default_timeout) ;;
  noPush <- get (fun p => disablePush (settings p)) ;;
  if negb noPush then
    info <- on_gitManager (env_branchInfo E) EvBranchInfo ;;
    if falsy (remote info) then
      displayError "Did not push. No upstream branch is set! See README for instructions" 10000 ;;
      setState idle
    else
      canPush <- on_gitManager (env_canPush E) EvCanPush ;;
      if canPush : bool then
        pullFirst <- get (fun p => pullBeforePush (settings p)) ;;
        when pullFirst
          (pulledFilesLength <- on_gitManager (env_pull E) EvPull ;;
           when (0 <? pulledFilesLength)%Z
             (displayMessage ("Pulled " +:+ numToString pulledFilesLength +:+ " files from remote")
                displayMessage_default_timeout)) ;;
        let push_it :=
          pushedFiles <- on_gitManager (env_push E) EvPush ;;
          displayMessage ("Pushed " +:+ numToString pushedFiles +:+ " files to remote")
            displayMessage_default_timeout ;;
          setState idle in
        gm <- get gitManager ;;
        if instanceof_SimpleGit gm then
          status <- on_gitManager (env_status E) (EvStatus PrePushCheck) ;;
          let n := Z.of_nat (length (conflicted_files status)) in
          if (0 <? n)%Z then
            displayError ("Cannot push. You have " +:+ numToString n +:+ " conflict files") 0 ;;
            detached (handleConflict (conflicted_files status))
          else push_it
        else push_it
      else
        displayMessage "No changes to push" displayMessage_default_timeout ;;
        setState idle
  else
    setState idle.

(** [createBackup], once [this.gitReady] holds. *)
Definition createBackup_ready (fromAutoBackup : bool) (commitMessage : option string) : M unit :=
  when (negb fromAutoBackup)
    (file <- query (fun h => env_getAbstractFileByPath E h conflictOutputFile) ;;
     call (fun h => env_vault_delete E h file) (EvVaultDelete file)) ;;
  gm <- get gitManager ;;
  if instanceof_SimpleGit gm then
    status <- on_gitManager (env_status E) (EvStatus ConflictCheck) ;;
    let n := Z.of_nat (length (conflicted_files status)) in
    if (fromAutoBackup && (0 <? n)%Z)%bool then
      setState idle ;;
      displayError ("Did not commit, because you have " +:+ numToString n
                    +:+ " conflict files. Please resolve them and commit per command.") 0 ;;
      detached (handleConflict (conflicted_files status))
    else createBackup_commit_push commitMessage
  else createBackup_commit_push commitMessage.

Definition createBackup (fromAutoBackup : bool) (commitMessage : option string) : M unit :=
  when_ready (createBackup_ready fromAutoBackup commitMessage).

End Coordinator.

(** ** Two environments and a plugin to run the workflows on *)

Module Samples.

Definition plugin0 : Plugin := {|
  gitManager := None; settings := DEFAULT_SETTINGS; state := None;
  intervalIDBackup := None; intervalIDPull := None; gitReady := false;
  promiseQueue := []; isMobile := false |}.

(** A repository in which every status reports the same files. *)
Definition steady (req : string) (st : RepositoryStatus) (upstream : option string)
    (ahead : bool) (pulled : Z) (del : Outcome unit) : Env := {|
  env_checkRequirements := fun _ _ => Resolved req;
  env_status := fun _ _ => Resolved st;
  env_pull := fun _ _ => Resolved pulled;
  env_push := fun _ _ => Resolved 1;
  env_commitAll := fun _ _ _ => Resolved (Z.of_nat (length (changed st)));
  env_branchInfo := fun _ _ => Resolved {| current := "master"; remote := upstream |};
  env_canPush := fun _ _ => Resolved ahead;
  env_getAbstractFileByPath := fun _ _ => None;
  env_fileToLinktext := fun _ f _ => match f with TFile p | TFolder p => p end;
  env_vault_delete := fun _ _ => del;
  env_adapter_write := fun _ _ _ => Resolved tt;
  env_leaves := fun _ => [];
  env_setInterval := fun h => Z.of_nat (length h)
|}.

Definition plugin_ready : Plugin := {|
  gitManager := Some SimpleGit; settings := DEFAULT_SETTINGS; state := Some idle;
  intervalIDBackup := None; intervalIDPull := None; gitReady := true;
  promiseQueue := []; isMobile := false |}.

Definition one_changed : RepositoryStatus :=
  {| changed := ["a.md"]; conflicted_files := [] |}.
Definition two_conflicts : RepositoryStatus :=
  {| changed := ["a.md"]; conflicted_files := ["b.md"; "c.md"] |}.
Definition nothing_changed : RepositoryStatus :=
  {| changed := []; conflicted_files := [] |}.

Definition env_clean : Env :=
  steady "valid" one_changed (Some "origin/master") true 0 (Resolved tt).
Definition env_conflicts : Env :=
  steady "valid" two_conflicts (Some "origin/master") true 0 (Resolved tt).
Definition env_pulled : Env :=
  steady "valid" one_changed (Some "origin/master") true 3 (Resolved tt).
Definition env_wrong_settings : Env :=
  steady "wrong-settings" one_changed (Some "origin/master") true 0 (Resolved tt).
Definition env_odd_result : Env :=
  steady "no-network" one_changed (Some "origin/master") true 0 (Resolved tt).
Definition env_no_upstream : Env :=
  steady "valid" nothing_changed None true 0 (Resolved tt).
Definition env_not_ahead : Env :=
  steady "valid" one_changed (Some "origin/master") false 0 (Resolved tt).
Definition env_delete_rejects : Env :=
  steady "valid" one_changed (Some "origin/master") true 0
    (Rejected "ENOENT: no such file or directory").

Definition plugin_standalone : Plugin := {|
  gitManager := Some IsomorphicGit;
  settings := {|
    commitMessage := "vault backup: {{date}}";
    commitDateFormat := "YYYY-MM-DD HH:mm:ss";
    autoSaveInterval := 0; autoPullInterval := 0; autoPullOnBoot := false;
    disablePush := false; pullBeforePush := true; disablePopups := false;
    listChangedFilesInMessageBody := false; standaloneMode := true; proxyURL := "" |};
  state := Some idle;
  intervalIDBackup := None; intervalIDPull := None; gitReady := true;
  promiseQueue := []; isMobile := false |}.

(** The runs the statements below are tried on. *)
Definition run_init_wrong_settings := init env_wrong_settings [] plugin0.
Definition run_init_odd_result := init env_odd_result [] plugin0.
Definition run_pull_three := pullChangesFromRemote env_pulled [] plugin_ready.
Definition run_pull_conflicts := pullChangesFromRemote env_conflicts [] plugin_ready.
Definition run_auto_conflicts := createBackup env_conflicts true None [] plugin0.
Definition run_standalone_conflicts :=
  createBackup env_conflicts false None [] plugin_standalone.
Definition run_no_upstream := createBackup env_no_upstream true None [] plugin0.
Definition run_not_ahead := createBackup env_not_ahead false None [] plugin0.
Definition run_delete_resolves := createBackup env_clean false None [] plugin_ready.
Definition run_delete_rejects := createBackup env_delete_rejects false None [] plugin_ready.

End Samples.

(** ** Vocabulary of the statements *)

(** The three parts of what a run gives. *)
Definition outcome_of {A} (x : Outcome A * Plugin * list Event) : Outcome A := fst (fst x).
Definition plugin_of {A} (x : Outcome A * Plugin * list Event) : Plugin := snd (fst x).
Definition events_of {A} (x : Outcome A * Plugin * list Event) : list Event := snd x.

(** [wp m h p Q]: the run of [m] from history [h] and plugin [p] ends in
    an outcome, a plugin and a list of events that satisfy [Q]. *)
Definition wp {A} (m : History -> Plugin -> Outcome A * Plugin * list Event)
    (h : History) (p : Plugin) (Q : Outcome A -> Plugin -> list Event -> Prop) : Prop :=
  match m h p with (r, p', evs) => Q r p' evs end.

Definition setState_events (s : PluginState) (p : Plugin) : list Event :=
  if negb (isMobile p) then [EvStatusBarDisplay s] else [].

Definition displayMessage_events (p : Plugin) (message : string) (timeout : Z) : list Event :=
  (if negb (isMobile p) then [EvStatusBarMessage (toLowerCase message) timeout] else [])
  ++ (if negb (disablePopups (settings p)) then [EvNotice message] else [])
  ++ [EvConsoleLog ("git obsidian message: " +:+ message)].

Definition displayError_events (p : Plugin) (message : string) (timeout : Z) : list Event :=
  [EvNotice message; EvConsoleLog ("git obsidian error: " +:+ message)]
  ++ (if negb (isMobile p) then [EvStatusBarMessage (toLowerCase message) timeout] else []).

(** Events [init] can add: it talks to the driver only through
    [checkRequirements], shows errors, and arms timers. *)
Definition init_event (e : Event) : bool :=
  match e with
  | EvNewBackend _ | EvCheckRequirements _ | EvNotice _
  | EvStatusBarMessage _ _ | EvStatusBarDisplay idle
  | EvSetInterval _ _ _ | EvRegisterInterval _ => true
  | EvConsoleLog m => negb (String.prefix "git obsidian message: " m)
  | _ => false
  end.

(** A message shown through [displayMessage]: the console line is written
    whatever the popup setting and the platform. *)
Definition message_shown (m : string) (evs : list Event) : Prop :=
  In (EvConsoleLog ("git obsidian message: " +:+ m)) evs.

(** An error shown through [displayError]: a notice and a console line. *)
Definition error_shown (m : string) (evs : list Event) : Prop :=
  In (EvNotice m) evs /\ In (EvConsoleLog ("git obsidian error: " +:+ m)) evs.

(** The driver [init] installs. *)
Definition selected_backend (p : Plugin) : BackendKind :=
  if (standaloneMode (settings p) || isMobile p)%bool then IsomorphicGit else SimpleGit.

(** Events that show something to the user or arm something. *)
Definition visible_or_arming (e : Event) : bool :=
  match e with
  | EvNotice _ | EvStatusBarMessage _ _ | EvStatusBarDisplay _
  | EvSetInterval _ _ _ | EvRegisterInterval _ => true
  | _ => false
  end.

Definition pulled_message (n : Z) : string :=
  "Pulled new changes. " +:+ numToString n +:+ " files updated".

Definition up_to_date_message : string := "Everything is up-to-date".

Definition conflict_count_error (s : RepositoryStatus) : string :=
  "You have " +:+ numToString (Z.of_nat (length (conflicted_files s))) +:+ " conflict files".

Definition no_changes_message : string := "No changes to commit".
Definition no_push_message : string := "No changes to push".
Definition no_upstream_error : string :=
  "Did not push. No upstream branch is set! See README for instructions".
Definition did_not_commit_error (s : RepositoryStatus) : string :=
  "Did not commit, because you have "
  +:+ numToString (Z.of_nat (length (conflicted_files s)))
  +:+ " conflict files. Please resolve them and commit per command.".
Definition cannot_push_error (s : RepositoryStatus) : string :=
  "Cannot push. You have " +:+ numToString (Z.of_nat (length (conflicted_files s)))
  +:+ " conflict files".

Definition never_commits (evs : list Event) : Prop :=
  forall message c, ~ In (EvCommitAll message c) evs.
Definition never_pushes (evs : list Event) : Prop :=
  forall c, ~ In (EvPush c) evs.
Definition never_pulls (evs : list Event) : Prop :=
  forall c, ~ In (EvPull c) evs.


(** What can happen in a run of [createBackup] before the changed files
    are asked for: [init], the deletion of the old report, the conflict
    check and, when that stops the run, the conflict report. *)
Definition preamble_event (e : Event) : bool :=
  match e with
  | EvNewBackend _ | EvCheckRequirements _ | EvNotice _
  | EvStatusBarMessage _ _ | EvStatusBarDisplay _
  | EvSetInterval _ _ _ | EvRegisterInterval _
  | EvVaultDelete _ _ | EvStatus ConflictCheck _
  | EvAdapterWrite _ _ _ | EvOpenLinkText _ _ _ => true
  | EvConsoleLog m => negb (String.prefix "git obsidian message: " m)
  | _ => false
  end.


(** ** The rest of the class: timers *)

(** [if (this.intervalIDBackup)]: a handle that is [undefined] or 0 is
    falsy. *)
Definition truthy_handle (id : option Z) : bool :=
  match id with
  | Some n => negb (n =? 0)%Z
  | None => false
  end.

(** [disableAutoBackup]: what it returns, and the handle it gives to
    [clearInterval], if any.  The field is left as it is. *)
Definition disableAutoBackup (p : Plugin) : bool * option Z :=
  if truthy_handle (intervalIDBackup p) then (true, intervalIDBackup p) else (false, None).

(** [disableAutoPull], likewise. *)
Definition disableAutoPull (p : Plugin) : bool * option Z :=
  if truthy_handle (intervalIDPull p) then (true, intervalIDPull p) else (false, None).

(** ** More vocabulary *)

(** The error an awaited call rejected with.  The write of the conflict
    report is not awaited by the workflows and is not among them. *)
Definition rejection_of (e : Event) : option string :=
  match e with
  | EvCheckRequirements (Rejected err) | EvStatus _ (Rejected err)
  | EvPull (Rejected err) | EvPush (Rejected err) | EvCommitAll _ (Rejected err)
  | EvBranchInfo (Rejected err) | EvCanPush (Rejected err)
  | EvVaultDelete _ (Rejected err) => Some err
  | _ => None
  end.

(** Every field but [state] is the same. *)
Definition same_but_state (p p' : Plugin) : Prop :=
  gitManager p' = gitManager p /\ settings p' = settings p
  /\ intervalIDBackup p' = intervalIDBackup p /\ intervalIDPull p' = intervalIDPull p
  /\ gitReady p' = gitReady p /\ promiseQueue p' = promiseQueue p
  /\ isMobile p' = isMobile p.

(** Every field but [gitManager] is the same. *)
Definition same_but_gitManager (p p' : Plugin) : Prop :=
  settings p' = settings p /\ state p' = state p
  /\ intervalIDBackup p' = intervalIDBackup p /\ intervalIDPull p' = intervalIDPull p
  /\ gitReady p' = gitReady p /\ promiseQueue p' = promiseQueue p
  /\ isMobile p' = isMobile p.

Definition init_errors : list string :=
  [ "Cannot run git command";
    "Valid git repository not found";
    "Not all of the required standalone mode settings are set" ].

(** The errors the backup workflow itself can show. *)
Definition backup_error (m : string) : Prop :=
  m = no_upstream_error
  \/ (exists s, m = did_not_commit_error s)
  \/ (exists s, m = cannot_push_error s).

Definition committed_message (n : Z) : string :=
  "Committed " +:+ numToString n +:+ " files".
Definition pushed_message (n : Z) : string :=
  "Pushed " +:+ numToString n +:+ " files to remote".
Definition pulled_from_remote_message (n : Z) : string :=
  "Pulled " +:+ numToString n +:+ " files from remote".

(** Whether the conflict-aware branches of a workflow started from [p]
    can run: the driver in place when ready, else the one [init] will
    install. *)
Definition conflict_capable (p : Plugin) : bool :=
  if gitReady p then instanceof_SimpleGit (gitManager p)
  else negb (standaloneMode (settings p) || isMobile p).

(** What a run of [init] from [p] can add to the history. *)
Definition init_may (p : Plugin) (e : Event) : Prop :=
  match e with
  | EvNewBackend k => k = selected_backend p
  | EvCheckRequirements _ => True
  | EvNotice m => In m init_errors
  | EvConsoleLog l =>
      (exists m, In m init_errors /\ l = "git obsidian error: " +:+ m)
      \/ (exists result,
            l = "Something weird happened. The 'checkRequirements' result is " +:+ result)
  | EvStatusBarMessage l t => isMobile p = false /\ t = 0
  | EvStatusBarDisplay s => isMobile p = false /\ s = idle
  | EvSetInterval t ms id =>
      0 < ms
      /\ ((t = TaskBackup true /\ ms = autoSaveInterval (settings p) * 60000)
          \/ (t = TaskPull /\ ms = autoPullInterval (settings p) * 60000))
  | EvRegisterInterval _ => True
  | _ => False
  end.

(** What a run of [createBackup_ready] can add, given whether the driver
    in place is the conflict-capable one, the settings, the platform and
    the two arguments. *)
Definition backup_may (capable : bool) (st : ObsidianGitSettings) (mobile : bool)
    (fromAutoBackup : bool) (commitMessage : option string) (e : Event) : Prop :=
  match e with
  | EvStatus ChangedQuery _ => True
  | EvStatus ConflictCheck _ => capable = true
  | EvStatus PrePushCheck _ => capable = true /\ disablePush st = false
  | EvStatus PostPullCheck _ => False
  | EvCommitAll m _ => m = commitMessage
  | EvBranchInfo _ | EvCanPush _ | EvPush _ => disablePush st = false
  | EvPull _ => disablePush st = false /\ pullBeforePush st = true
  | EvVaultDelete _ _ => fromAutoBackup = false
  | EvNotice m => backup_error m \/ disablePopups st = false
  | EvConsoleLog _ => True
  | EvStatusBarMessage _ _ => mobile = false
  | EvStatusBarDisplay s => mobile = false /\ (s = idle \/ s = conflicted)
  | EvAdapterWrite path _ _ => capable = true /\ path = conflictOutputFile
  | EvOpenLinkText l s n => capable = true /\ l = conflictOutputFile /\ s = "/" /\ n = true
  | EvNewBackend _ | EvCheckRequirements _ | EvSetInterval _ _ _ | EvRegisterInterval _ =>
      False
  end.

(** What a run of [pullChangesFromRemote_ready] can add. *)
Definition pull_may (capable : bool) (st : ObsidianGitSettings) (mobile : bool)
    (e : Event) : Prop :=
  match e with
  | EvPull _ => True
  | EvStatus PostPullCheck _ => capable = true
  | EvNotice m => (exists s, m = conflict_count_error s) \/ disablePopups st = false
  | EvConsoleLog _ => True
  | EvStatusBarMessage _ _ => mobile = false
  | EvStatusBarDisplay s => mobile = false /\ s = idle
  | _ => False
  end.

(** What a run that resolved left behind: state [idle] and no report, or
    state [conflicted] and a report handed to the vault; a run that
    rejected left the plugin as it was. *)
Definition settled (p : Plugin) (r : Outcome unit) (p' : Plugin) (evs : list Event) : Prop :=
  same_but_state p p'
  /\ match r with
     | Resolved _ =>
         (state p' = Some idle
          /\ forall path text wr, ~ In (EvAdapterWrite path text wr) evs)
         \/ (state p' = Some conflicted
             /\ exists text wr, In (EvAdapterWrite conflictOutputFile text wr) evs)
     | Rejected _ => p' = p
     end.

(** The callback of the command "list-changed-files".  What the run
    resolves with is what it hands to [ChangedFilesModal]: [None] when it
    returns before opening the modal. *)
Definition listChangedFiles (E : Env) : M (option (list string)) :=
  bind (get gitReady) (fun ready =>
  bind (when (negb ready) (init E)) (fun _ =>
  bind (get gitReady) (fun ready =>
  if negb ready then ret None
  else
    bind (on_gitManager (env_status E) (EvStatus ChangedQuery)) (fun status =>
    ret (Some (changed status)))))).

(** *** The conflict report, spelled out *)

(** The text of a report with the given bullets: the heading, the
    instruction and the bullets, one on each line. *)
Definition report_text (bullets : list string) : string :=
  String.concat (String "010"%char EmptyString)
    ("# Conflict files"
     :: "Please resolve them and commit per command (This file will be deleted before the commit)."
     :: bullets).

(** What a report says of the path [e], the vault being as it was at [h]:
    a link to the file found there, or that there is no file there. *)
Definition report_bullet (E : Env) (h : History) (e b : string) : Prop :=
  (exists f, env_getAbstractFileByPath E h e = Some (TFile f)
             /\ b = "- [[" +:+ env_fileToLinktext E h (TFile f) "/" +:+ "]]")
  \/ ((forall f, env_getAbstractFileByPath E h e <> Some (TFile f))
      /\ b = "- Not a file: " +:+ e).


(** *** The queue when [init] enqueues

    [init] starts no task: it enqueues nothing, or the queue is running, so
    that what it enqueues waits behind the running head. *)
Definition enqueue_waits (p : Plugin) : Prop :=
  autoPullOnBoot (settings p) = false \/ promiseQueue p <> [].

(** ** More environments and plugins to run the workflows on *)

Module MoreSamples.

Import Samples.

(** [E], but every pull rejects. *)
Definition pull_fails (E : Env) (err : string) : Env := {|
  env_checkRequirements := env_checkRequirements E;
  env_status := env_status E;
  env_pull := fun _ _ => Rejected err;
  env_push := env_push E;
  env_commitAll := env_commitAll E;
  env_branchInfo := env_branchInfo E;
  env_canPush := env_canPush E;
  env_getAbstractFileByPath := env_getAbstractFileByPath E;
  env_fileToLinktext := env_fileToLinktext E;
  env_vault_delete := env_vault_delete E;
  env_adapter_write := env_adapter_write E;
  env_leaves := env_leaves E;
  env_setInterval := env_setInterval E
|}.

(** [E], but every write to the vault rejects. *)
Definition write_fails (E : Env) (err : string) : Env := {|
  env_checkRequirements := env_checkRequirements E;
  env_status := env_status E;
  env_pull := env_pull E;
  env_push := env_push E;
  env_commitAll := env_commitAll E;
  env_branchInfo := env_branchInfo E;
  env_canPush := env_canPush E;
  env_getAbstractFileByPath := env_getAbstractFileByPath E;
  env_fileToLinktext := env_fileToLinktext E;
  env_vault_delete := env_vault_delete E;
  env_adapter_write := fun _ _ _ => Rejected err;
  env_leaves := env_leaves E;
  env_setInterval := env_setInterval E
|}.

(** [E], with the given display texts on the leaves of the workspace. *)
Definition with_leaves (E : Env) (leaves : list string) : Env := {|
  env_checkRequirements := env_checkRequirements E;
  env_status := env_status E;
  env_pull := env_pull E;
  env_push := env_push E;
  env_commitAll := env_commitAll E;
  env_branchInfo := env_branchInfo E;
  env_canPush := env_canPush E;
  env_getAbstractFileByPath := env_getAbstractFileByPath E;
  env_fileToLinktext := env_fileToLinktext E;
  env_vault_delete := env_vault_delete E;
  env_adapter_write := env_adapter_write E;
  env_leaves := fun _ => leaves;
  env_setInterval := env_setInterval E
|}.

Definition env_missing_git : Env :=
  steady "missing-git" one_changed (Some "origin/master") true 0 (Resolved tt).
Definition env_offline : Env := pull_fails env_clean "could not resolve host".
Definition env_read_only : Env := write_fails env_conflicts "EACCES: permission denied".
Definition env_leaf_conflict : Env := with_leaves env_conflicts ["conflict"].

Definition with_settings (s : ObsidianGitSettings) (p : Plugin) : Plugin := {|
  gitManager := gitManager p; settings := s; state := state p;
  intervalIDBackup := intervalIDBackup p; intervalIDPull := intervalIDPull p;
  gitReady := gitReady p; promiseQueue := promiseQueue p; isMobile := isMobile p |}.

Definition settings_timers : ObsidianGitSettings := {|
  commitMessage := "vault backup: {{date}}";
  commitDateFormat := "YYYY-MM-DD HH:mm:ss";
  autoSaveInterval := 5; autoPullInterval := 10; autoPullOnBoot := true;
  disablePush := false; pullBeforePush := true; disablePopups := false;
  listChangedFilesInMessageBody := false; standaloneMode := false; proxyURL := "" |}.

Definition settings_local : ObsidianGitSettings := {|
  commitMessage := "vault backup: {{date}}";
  commitDateFormat := "YYYY-MM-DD HH:mm:ss";
  autoSaveInterval := 0; autoPullInterval := 0; autoPullOnBoot := false;
  disablePush := true; pullBeforePush := true; disablePopups := false;
  listChangedFilesInMessageBody := false; standaloneMode := false; proxyURL := "" |}.

Definition settings_quiet : ObsidianGitSettings := {|
  commitMessage := "vault backup: {{date}}";
  commitDateFormat := "YYYY-MM-DD HH:mm:ss";
  autoSaveInterval := 0; autoPullInterval := 0; autoPullOnBoot := false;
  disablePush := false; pullBeforePush := true; disablePopups := true;
  listChangedFilesInMessageBody := false; standaloneMode := false; proxyURL := "" |}.

Definition plugin_timers : Plugin := with_settings settings_timers plugin0.
Definition plugin_local : Plugin := with_settings settings_local plugin_ready.
Definition plugin_quiet : Plugin := with_settings settings_quiet plugin_ready.
Definition plugin_mobile : Plugin := {|
  gitManager := None; settings := DEFAULT_SETTINGS; state := None;
  intervalIDBackup := None; intervalIDPull := None; gitReady := false;
  promiseQueue := []; isMobile := true |}.

Definition run_init_timers := init env_clean [] plugin_timers.
Definition run_pull_offline := pullChangesFromRemote env_offline [] plugin_ready.
Definition run_auto_read_only := createBackup env_read_only true None [] plugin_ready.
Definition run_backup_missing_git := createBackup env_missing_git true None [] plugin0.
Definition run_pull_missing_git := pullChangesFromRemote env_missing_git [] plugin0.
Definition run_backup_local := createBackup env_clean false None [] plugin_local.
Definition run_backup_pulled := createBackup env_pulled true None [] plugin_ready.
Definition run_backup_message :=
  createBackup env_clean false (Some "notes of today") [] plugin_ready.
Definition run_backup_clean := createBackup env_clean true None [] plugin_ready.
Definition run_backup_mobile := createBackup env_clean false None [] plugin_mobile.
Definition run_pull_mobile := pullChangesFromRemote env_conflicts [] plugin_mobile.
Definition run_backup_quiet := createBackup env_conflicts true None [] plugin_quiet.
Definition run_handle_conflict := handleConflict env_conflicts ["b.md"; "c.md"] [] plugin_ready.
Definition run_write_report :=
  writeAndOpenFile env_leaf_conflict "# Conflict files" [] plugin_ready.

Definition run_list_changed := listChangedFiles env_clean [] plugin0.

(** The plugin of [plugin_timers] while a manual backup is the running
    head of the queue. *)
Definition plugin_boot_busy : Plugin := {|
  gitManager := None; settings := settings_timers; state := None;
  intervalIDBackup := None; intervalIDPull := None; gitReady := false;
  promiseQueue := [TaskBackup false]; isMobile := false |}.
Definition run_init_busy := init env_clean [] plugin_boot_busy.

End MoreSamples.

(** ** Running a workflow symbolically *)

Lemma run_parts {A} (x : Outcome A * Plugin * list Event) :
  x = (outcome_of x, plugin_of x, events_of x).
Proof. now destruct x as [[r p] evs]. Defined.

Section WP.

Variable E : Env.
Context {A B : Type}.
Implicit Types (h : History) (p : Plugin).

Lemma wp_elim (m : M A) h p Q r p' evs :
  wp m h p Q -> m h p = (r, p', evs) -> Q r p' evs.
Proof. unfold wp. intros H Hrun. now rewrite Hrun in H. Qed.

Lemma wp_intro (m : M A) h p (Q : Outcome A -> Plugin -> list Event -> Prop) :
  (forall r p' evs, m h p = (r, p', evs) -> Q r p' evs) -> wp m h p Q.
Proof. unfold wp. intros H. destruct (m h p) as [[r p'] evs]. now apply H. Qed.

Lemma wp_ret (a : A) h p Q : Q (Resolved a) p [] -> wp (ret a) h p Q.
Proof. exact (fun H => H). Qed.

Lemma wp_tail (m : M A) h p Q : wp (bind m ret) h p Q -> wp m h p Q.
Proof.
  unfold wp, bind, ret. destruct (m h p) as [[[a|e] p1] ev1]; [|exact (fun H => H)].
  now rewrite app_nil_r.
Qed.

Lemma wp_untail (m : M A) h p Q : wp m h p Q -> wp (bind m ret) h p Q.
Proof.
  unfold wp, bind, ret. destruct (m h p) as [[[a|e] p1] ev1]; [|exact (fun H => H)].
  now rewrite app_nil_r.
Qed.

Lemma wp_bind (m : M A) (f : A -> M B) h p Q :
  wp m h p (fun r p1 ev1 =>
    match r with
    | Resolved a => wp (f a) (h ++ ev1) p1 (fun r2 p2 ev2 => Q r2 p2 (ev1 ++ ev2))
    | Rejected e => Q (Rejected e) p1 ev1
    end) ->
  wp (bind m f) h p Q.
Proof.
  unfold wp, bind. destruct (m h p) as [[[a|e] p1] ev1]; [|exact (fun H => H)].
  now destruct (f a (h ++ ev1) p1) as [[r2 p2] ev2].
Qed.

Lemma wp_bind_ret (a : A) (f : A -> M B) h p Q :
  wp (f a) h p Q -> wp (bind (ret a) f) h p Q.
Proof.
  unfold wp, bind, ret. rewrite app_nil_r.
  now destruct (f a h p) as [[r2 p2] ev2].
Qed.

Lemma wp_bind_get (g : Plugin -> A) (f : A -> M B) h p Q :
  wp (f (g p)) h p Q -> wp (bind (get g) f) h p Q.
Proof. exact (wp_bind_ret (g p) f h p Q). Qed.

Lemma wp_bind_query (q : History -> A) (f : A -> M B) h p Q :
  wp (f (q h)) h p Q -> wp (bind (query q) f) h p Q.
Proof. exact (wp_bind_ret (q h) f h p Q). Qed.

Lemma wp_bind_modify (g : Plugin -> Plugin) (f : unit -> M B) h p Q :
  wp (f tt) h (g p) Q -> wp (bind (modify g) f) h p Q.
Proof.
  unfold wp, bind, modify. rewrite app_nil_r.
  now destruct (f tt h (g p)) as [[r2 p2] ev2].
Qed.

Lemma wp_bind_emit (e : Event) (f : unit -> M B) h p Q :
  wp (f tt) (h ++ [e]) p (fun r p' evs => Q r p' (e :: evs)) ->
  wp (bind (emit e) f) h p Q.
Proof.
  unfold wp, bind, emit.
  now destruct (f tt (h ++ [e]) p) as [[r2 p2] ev2].
Qed.

Lemma wp_bind_throw (err : string) (f : A -> M B) h p Q :
  Q (Rejected err) p [] -> wp (bind (throw err) f) h p Q.
Proof. exact (fun H => H). Qed.

Lemma wp_bind_call (q : History -> Outcome A) (ev : Outcome A -> Event) (f : A -> M B) h p Q :
  match q h with
  | Resolved a =>
      wp (f a) (h ++ [ev (Resolved a)]) p (fun r p' evs => Q r p' (ev (Resolved a) :: evs))
  | Rejected err => Q (Rejected err) p [ev (Rejected err)]
  end ->
  wp (bind (call q ev) f) h p Q.
Proof.
  unfold wp, bind, call. destruct (q h) as [a|err]; [|exact (fun H => H)].
  now destruct (f a (h ++ [ev (Resolved a)]) p) as [[r2 p2] ev2].
Qed.

Lemma wp_bind_call_cases (q : History -> Outcome A) (ev : Outcome A -> Event)
    (f : A -> M B) h p Q :
  (forall a, q h = Resolved a ->
     wp (f a) (h ++ [ev (Resolved a)]) p (fun r p' evs => Q r p' (ev (Resolved a) :: evs))) ->
  (forall err, q h = Rejected err -> Q (Rejected err) p [ev (Rejected err)]) ->
  wp (bind (call q ev) f) h p Q.
Proof.
  intros Hres Hrej. apply wp_bind_call. destruct (q h); auto.
Qed.

Lemma wp_bind_query_var (q : History -> A) (f : A -> M B) h p Q :
  (forall v, v = q h -> wp (f v) h p Q) -> wp (bind (query q) f) h p Q.
Proof. intros H. apply wp_bind_query. now apply H. Qed.

Lemma wp_bind_if (b : bool) (m1 m2 : M A) (f : A -> M B) h p Q :
  (b = true -> wp (bind m1 f) h p Q) ->
  (b = false -> wp (bind m2 f) h p Q) ->
  wp (bind (if b then m1 else m2) f) h p Q.
Proof. destruct b; auto. Qed.

Lemma wp_bind_if_negb (b : bool) (m1 m2 : M A) (f : A -> M B) h p Q :
  (b = false -> wp (bind m1 f) h p Q) ->
  (b = true -> wp (bind m2 f) h p Q) ->
  wp (bind (if negb b then m1 else m2) f) h p Q.
Proof. destruct b; auto. Qed.

Lemma wp_bind_detached (m : M unit) (f : unit -> M B) h p Q :
  wp m h p (fun _ p1 ev1 =>
    wp (f tt) (h ++ ev1) p1 (fun r2 p2 ev2 => Q r2 p2 (ev1 ++ ev2))) ->
  wp (bind (detached m) f) h p Q.
Proof.
  unfold wp, bind, detached. destruct (m h p) as [[r p1] ev1].
  now destruct (f tt (h ++ ev1) p1) as [[r2 p2] ev2].
Qed.

End WP.

Lemma wp_bind_assoc {A B C} (m : M A) (f : A -> M B) (g : B -> M C) h p Q :
  wp (bind m (fun x => bind (f x) g)) h p Q -> wp (bind (bind m f) g) h p Q.
Proof.
  unfold wp, bind. destruct (m h p) as [[[a|e] p1] ev1]; [|exact (fun H => H)].
  destruct (f a (h ++ ev1) p1) as [[[b|e] p2] ev2]; [|exact (fun H => H)].
  rewrite (app_assoc h ev1 ev2).
  destruct (g b ((h ++ ev1) ++ ev2) p2) as [[r3 p3] ev3].
  now rewrite (app_assoc ev1 ev2 ev3).
Qed.

(** *** What the display methods add to the history *)

Lemma setState_run s h p :
  setState s h p = (Resolved tt, set_state s p, setState_events s p).
Proof.
  unfold setState, setState_events, bind, get, modify, when, emit, ret. cbn.
  now destruct (isMobile p).
Qed.

Lemma displayMessage_run m t h p :
  displayMessage m t h p = (Resolved tt, p, displayMessage_events p m t).
Proof.
  unfold displayMessage, displayMessage_events, bind, get, when, emit, ret.
  destruct (isMobile p) eqn:Hm; cbn; rewrite ?Hm; cbn;
  destruct (isMobile p), (disablePopups (settings p)); reflexivity.
Qed.

Lemma displayError_run m t h p :
  displayError m t h p = (Resolved tt, p, displayError_events p m t).
Proof.
  unfold displayError, displayError_events, bind, get, when, emit, ret. cbn.
  destruct (isMobile p); reflexivity.
Qed.

Lemma wp_bind_run {A B} (m : M A) (f : A -> M B) h p Q a p1 ev1 :
  m h p = (Resolved a, p1, ev1) ->
  wp (f a) (h ++ ev1) p1 (fun r p' evs => Q r p' (ev1 ++ evs)) ->
  wp (bind m f) h p Q.
Proof.
  intros Hm H. apply wp_bind. unfold wp at 1. now rewrite Hm.
Qed.

Lemma in_setState_events e s p :
  In e (setState_events s p) -> e = EvStatusBarDisplay s.
Proof.
  unfold setState_events. destruct (isMobile p); cbn; intuition.
Qed.

Lemma in_displayMessage_events e p m t :
  In e (displayMessage_events p m t) ->
  e = EvStatusBarMessage (toLowerCase m) t \/ e = EvNotice m
  \/ e = EvConsoleLog ("git obsidian message: " +:+ m).
Proof.
  unfold displayMessage_events.
  destruct (isMobile p), (disablePopups (settings p)); cbn; intuition.
Qed.

Lemma in_displayError_events e p m t :
  In e (displayError_events p m t) ->
  e = EvStatusBarMessage (toLowerCase m) t \/ e = EvNotice m
  \/ e = EvConsoleLog ("git obsidian error: " +:+ m).
Proof.
  unfold displayError_events. destruct (isMobile p); cbn; intuition.
Qed.

Lemma message_in_events p m t :
  In (EvConsoleLog ("git obsidian message: " +:+ m)) (displayMessage_events p m t).
Proof.
  unfold displayMessage_events. apply in_or_app. right. apply in_or_app. right.
  now left.
Qed.

Lemma notice_in_error_events p m t : In (EvNotice m) (displayError_events p m t).
Proof. now left. Qed.

Lemma console_in_error_events p m t :
  In (EvConsoleLog ("git obsidian error: " +:+ m)) (displayError_events p m t).
Proof. right. now left. Qed.

(** Read a flag whose value is already known, or split on it. *)
Ltac wp_case x :=
  first [ match goal with H : x = _ |- _ => rewrite H end
        | destruct x eqn:? ].

Ltac head_of t :=
  lazymatch t with
  | ?f _ => head_of f
  | _ => t
  end.

(** Unfold the method that is about to run, and only there. *)
Ltac wp_unfold_method :=
  lazymatch goal with
  | |- wp (bind ?m _) _ _ _ => let c := head_of m in unfold c at 1
  end.

Ltac wp_simpl :=
  cbn beta iota zeta delta
    [app gitManager settings state intervalIDBackup intervalIDPull gitReady
     promiseQueue isMobile set_gitManager set_state set_gitReady
     set_intervalIDBackup set_intervalIDPull push_task instanceof_SimpleGit
     andb orb negb].

(** Split on a test, unless its value is a variable or already known. *)
Ltac wp_if b :=
  first
    [ is_var b; destruct b
    | match goal with H : b = _ |- _ => rewrite H end
    | lazymatch b with context [match ?x with _ => _ end] => wp_case x end
    | lazymatch b with
      | negb ?c =>
          first [ is_var c; destruct c
                | match goal with H : c = _ |- _ => rewrite H end
                | apply wp_bind_if_negb; intros ? ]
      | _ => apply wp_bind_if; intros ?
      end ].

Ltac wp_step :=
  try match goal with
      | H : gitManager ?p = _ |- context [gitManager ?p] => rewrite H
      end;
  lazymatch goal with
  | |- wp (bind ?m _) _ _ _ =>
      lazymatch m with
      | bind _ _ => apply wp_bind_assoc
      | ret _ => apply wp_bind_ret
      | get _ => apply wp_bind_get
      | modify _ => apply wp_bind_modify
      | emit _ => apply wp_bind_emit
      | throw _ => apply wp_bind_throw
      | query _ => apply wp_bind_query_var; intros ? ?
      | call _ _ => apply wp_bind_call_cases; [intros ? ? | intros ? ?]
      | detached _ => apply wp_bind_detached
      | setState _ => eapply wp_bind_run; [apply setState_run|]
      | displayMessage _ _ => eapply wp_bind_run; [apply displayMessage_run|]
      | displayError _ _ => eapply wp_bind_run; [apply displayError_run|]
      | when _ _ => unfold when at 1
      | (if ?b then _ else _) => wp_if b
      | (match ?x with _ => _ end) => wp_case x
      | _ => wp_unfold_method
      end
  | |- wp (ret _) _ _ _ => apply wp_ret
  | |- wp _ _ _ _ => apply wp_tail
  end; wp_simpl.

Ltac wp_run := wp_simpl; repeat wp_step.

(** Run [createBackup_ready] up to where it hands over to
    [createBackup_commit_push]. *)
Ltac wp_run_to_commit :=
  unfold createBackup_ready; wp_simpl;
  repeat lazymatch goal with
         | |- wp (createBackup_commit_push _ _) _ _ _ => fail
         | |- wp (bind (createBackup_commit_push _ _) ret) _ _ _ => apply wp_untail
         | _ => wp_step
         end.

(** Turn a statement about a run into one about [wp]. *)
Ltac wp_start :=
  match goal with
  | H : ?m ?h ?p = (?r, ?p', ?evs) |- _ =>
      pattern r, p', evs;
      apply (wp_elim m h p _ r p' evs); [ clear H | exact H ]
  end.

(** Turn what was learnt from comparing strings into equations, and
    close the case when two such facts disagree. *)
Ltac str_facts :=
  repeat match goal with
  | H : String.eqb _ _ = true |- _ => apply String.eqb_eq in H
  | H : String.eqb _ _ = false |- _ => apply String.eqb_neq in H
  end.

(** Two events that are equal have equal parts; two messages with the
    same literal prefix have equal remainders. *)
Ltac ev_inj :=
  repeat match goal with
  | H : @eq Event _ _ |- _ =>
      first [ discriminate H | injection H; clear H; intros; subst ]
  | H : @eq (Outcome _) _ _ |- _ =>
      first [ discriminate H | injection H; clear H; intros; subst ]
  | H : @eq string (String.append _ _) (String.append _ _) |- _ =>
      first [ discriminate H | apply String.app_inj in H; subst ]
  end.

(** Close a path on which what the driver answered contradicts what the
    statement assumes about that answer. *)
Ltac answers_clash :=
  match goal with
  | H : ?l <> [], H' : Z.ltb 0 (Z.of_nat (length ?l)) = false |- _ =>
      exfalso; destruct l; [congruence | discriminate H']
  | H : ?l <> [], H' : Nat.eqb (length ?l) 0 = true |- _ =>
      exfalso; destruct l; [congruence | discriminate H']
  | H : ?l = [], H' : Nat.eqb (length ?l) 0 = false |- _ =>
      exfalso; rewrite H in H'; discriminate H'
  | H : ?x = None, H' : falsy ?x = false |- _ =>
      exfalso; rewrite H in H'; discriminate H'
  end.

(** Take apart what is known about membership in a list of events. *)
Ltac in_split :=
  repeat match goal with
  | H : In _ [] |- _ => destruct H
  | H : In _ (_ :: _) |- _ => destruct H as [H|H]
  | H : In _ (_ ++ _) |- _ => apply in_app_or in H; destruct H as [H|H]
  | H : In _ (setState_events _ _) |- _ => apply in_setState_events in H
  | H : In _ (displayMessage_events _ _ _) |- _ =>
      apply in_displayMessage_events in H; destruct H as [H|[H|H]]
  | H : In _ (displayError_events _ _ _) |- _ =>
      apply in_displayError_events in H; destruct H as [H|[H|H]]
  | H : ~ In _ _ |- _ => fail 1
  end.

(** Find an event in a list given by its elements and display chunks. *)
Ltac in_find_go :=
  idtac; first
    [ assumption
    | apply in_eq
    | apply message_in_events
    | apply notice_in_error_events
    | apply console_in_error_events
    | apply in_cons; in_find_go
    | apply in_or_app; left; in_find_go
    | apply in_or_app; right; in_find_go ].

Ltac in_find := solve [in_find_go].

Section StringFacts.

Lemma prefix_app (a b : string) : String.prefix a (a +:+ b) = true.
Proof.
  induction a as [|c a IH]; simpl.
  - now destruct b.
  - destruct (ascii_dec c c); [exact IH | congruence].
Qed.

Lemma length_app (a b : string) :
  String.length (a +:+ b) = (String.length a + String.length b)%nat.
Proof. induction a; simpl; auto. Qed.

Lemma app_inj_r (t a b : string) : a +:+ t = b +:+ t -> a = b.
Proof.
  revert b. induction a as [|c a IH]; intros [|d b] H; simpl in H; auto.
  - apply (f_equal String.length) in H. rewrite !length_app in H. simpl in H.
    rewrite ?length_app in H. lia.
  - apply (f_equal String.length) in H. rewrite !length_app in H. simpl in H.
    rewrite ?length_app in H. lia.
  - injection H as -> H. f_equal. auto.
Qed.

Lemma numToString_inj (n k : Z) : numToString n = numToString k -> n = k.
Proof. apply pretty_Z_inj. Qed.

Lemma nonempty_length_pos {A} (l : list A) :
  l <> [] -> (0 <? Z.of_nat (length l))%Z = true.
Proof. destruct l; [congruence | intros _; apply Z.ltb_lt; cbn; lia]. Qed.

Lemma message_not_init m :
  init_event (EvConsoleLog ("git obsidian message: " +:+ m)) = false.
Proof. unfold init_event. now rewrite prefix_app. Qed.

Lemma init_prefix_not_in ev1 e :
  Forall (fun e => init_event e = true) ev1 -> init_event e = false -> ~ In e ev1.
Proof.
  intros Hall He Hin. rewrite List.Forall_forall in Hall.
  apply Hall in Hin. congruence.
Qed.

End StringFacts.

Section InitFacts.

Variable E : Env.

Lemma init_events h p r p' evs :
  init E h p = (r, p', evs) ->
  Forall (fun e => init_event e = true) evs.
Proof.
  intros H. wp_start. wp_run.
  all: apply List.Forall_forall; intros e He; in_split; subst; reflexivity.
Qed.

Lemma init_plugin h p r p' evs :
  init E h p = (r, p', evs) ->
  settings p' = settings p /\ isMobile p' = isMobile p
  /\ gitManager p' = Some (selected_backend p)
  /\ (gitReady p = true -> gitReady p' = true).
Proof.
  intros H. wp_start. unfold selected_backend. wp_run.
  all: cbn; auto.
Qed.

(** What is left of a run of [when_ready body]: [init] first when the
    plugin was not ready, then [body] when it is ready by then. *)
Lemma when_ready_run body h p r p' evs :
  when_ready E body h p = (r, p', evs) ->
  exists ev1 p1 ev2,
    evs = ev1 ++ ev2
    /\ Forall (fun e => init_event e = true) ev1
    /\ settings p1 = settings p /\ isMobile p1 = isMobile p
    /\ (p1 = p \/ gitManager p1 = Some (selected_backend p))
    /\ ((gitReady p1 = true /\ body (h ++ ev1) p1 = (r, p', ev2))
        \/ (ev2 = [] /\ p' = p1 /\ (gitReady p1 = false \/ exists e, r = Rejected e))).
Proof.
  unfold when_ready, bind, get, when, ret. cbn -[init].
  destruct (gitReady p) eqn:Hready; cbn -[init].
  - rewrite Hready. cbn. rewrite !app_nil_r.
    destruct (body h p) as [[r2 p2] ev2] eqn:Hbody. intros [= <- <- <-].
    exists [], p, ev2. rewrite app_nil_r.
    repeat split; [constructor | now left | left; now split].
  - rewrite !app_nil_r.
    destruct (init E h p) as [[[[]|e] p1] ev1] eqn:Hinit; cbn;
      destruct (init_plugin _ _ _ _ _ Hinit) as (Hs & Hm & Hgm & _);
      pose proof (init_events _ _ _ _ _ Hinit) as Hev.
    + destruct (gitReady p1) eqn:Hready1; cbn.
      * rewrite !app_nil_r.
        destruct (body (h ++ ev1) p1) as [[r2 p2] ev2] eqn:Hbody. intros [= <- <- <-].
        exists ev1, p1, ev2.
        repeat split; [assumption.. | now right | left; now split].
      * intros [= <- <- <-]. exists ev1, p1, [].
        repeat split; [assumption.. | now right | right; repeat split; now left].
    + intros [= <- <- <-]. exists ev1, p1, []. rewrite app_nil_r.
      repeat split; [assumption.. | now right | right; repeat split; right; now exists e].
Qed.

(** A run of [when_ready body] in which something happened that [init]
    never does has run [body], and there it happened. *)
Lemma when_ready_body body h p r p' evs e :
  when_ready E body h p = (r, p', evs) ->
  In e evs -> init_event e = false ->
  exists ev1 p1 ev2,
    evs = ev1 ++ ev2
    /\ Forall (fun e => init_event e = true) ev1
    /\ settings p1 = settings p /\ isMobile p1 = isMobile p
    /\ (p1 = p \/ gitManager p1 = Some (selected_backend p))
    /\ gitReady p1 = true
    /\ body (h ++ ev1) p1 = (r, p', ev2)
    /\ In e ev2.
Proof.
  intros Hrun Hin He.
  apply when_ready_run in Hrun as (ev1 & p1 & ev2 & Hevs & Hinit & Hs & Hm & Hgm & Hcase).
  subst evs. apply in_app_or in Hin as [Hin|Hin].
  { exfalso. exact (init_prefix_not_in _ _ Hinit He Hin). }
  destruct Hcase as [[Hready Hbody] | (Hnil & _)].
  - exists ev1, p1, ev2. auto 10.
  - subst ev2. destruct Hin.
Qed.

End InitFacts.

(** ** Initialisation *)

Section Init.

Variable E : Env.

(** When [checkRequirements] says the git command or the repository is
    missing, [init] shows the matching error and changes nothing but the
    driver: readiness, state, timers and queue stay as they were. *)
Lemma init_missing h p r p' evs result :
  init E h p = (r, p', evs) ->
  In (EvCheckRequirements (Resolved result)) evs ->
  result = "missing-git" \/ result = "missing-repo" ->
  r = Resolved tt
  /\ p' = set_gitManager (selected_backend p) p
  /\ (result = "missing-git" -> error_shown "Cannot run git command" evs)
  /\ (result = "missing-repo" -> error_shown "Valid git repository not found" evs)
  /\ forall e, In e evs ->
       match e with EvSetInterval _ _ _ | EvRegisterInterval _ => False | _ => True end.
Proof.
  intros H. wp_start. unfold selected_backend, error_shown. wp_run.
  all: intros Hin Hres; in_split; try discriminate;
    try (injection Hin as <-); try discriminate; str_facts.
  all: try (destruct Hres; subst; congruence).
  all: (split; [reflexivity|]); (split; [reflexivity|]).
  all: (split; [intros; subst; try congruence; split; in_find|]).
  all: (split; [intros; subst; try congruence; split; in_find|]).
  all: intros e He; in_split; subst; exact I.
Qed.

(** C1, where the code departs from it: when [checkRequirements] answers
    "wrong-settings", [init] shows the error and then runs on into the
    "valid" case, so the plugin ends ready, in state [idle], and with the
    backup timer armed when an interval is configured. *)
Theorem init_wrong_settings_falls_through h p r p' evs :
  init E h p = (r, p', evs) ->
  In (EvCheckRequirements (Resolved "wrong-settings")) evs ->
  r = Resolved tt
  /\ error_shown "Not all of the required standalone mode settings are set" evs
  /\ gitReady p' = true
  /\ state p' = Some idle
  /\ (0 < autoSaveInterval (settings p) ->
      exists id, In (EvSetInterval (TaskBackup true)
                       (autoSaveInterval (settings p) * 60000) id) evs
                 /\ intervalIDBackup p' = Some id).
Proof.
  intros H. wp_start. unfold error_shown. wp_run.
  all: intros Hin; in_split; try discriminate;
    try (injection Hin as ->); try discriminate; str_facts; try congruence.
  all: repeat split; try in_find.
  all: intros Hpos; subst;
    try (match goal with H : Z.ltb _ _ = false |- _ => apply Z.ltb_ge in H; lia end).
  all: eexists; split; [in_find | reflexivity].
Qed.

(** C10: when [checkRequirements] answers with something that is none of
    the four documented results, [init] only installs the driver and
    writes one console line: readiness, state, timer handles and queue are
    unchanged, nothing is shown to the user and no timer is armed. *)
Theorem init_undocumented_result h p r p' evs result :
  init E h p = (r, p', evs) ->
  In (EvCheckRequirements (Resolved result)) evs ->
  result <> "valid" -> result <> "missing-git" ->
  result <> "missing-repo" -> result <> "wrong-settings" ->
  r = Resolved tt
  /\ gitReady p' = gitReady p
  /\ state p' = state p
  /\ intervalIDBackup p' = intervalIDBackup p
  /\ intervalIDPull p' = intervalIDPull p
  /\ promiseQueue p' = promiseQueue p
  /\ evs = [ EvNewBackend (selected_backend p);
             EvCheckRequirements (Resolved result);
             EvConsoleLog ("Something weird happened. The 'checkRequirements' result is "
                           +:+ result) ]
  /\ Forall (fun e => visible_or_arming e = false) evs.
Proof.
  intros H. wp_start. unfold selected_backend. wp_run.
  all: intros Hin; in_split; try discriminate;
    try (injection Hin as <-); try discriminate; str_facts; try congruence.
  all: intros; repeat split; repeat constructor.
Qed.

End Init.

(** ** The pull workflow *)

Section Pull.

Variable E : Env.

Lemma pulled_message_inj n k : pulled_message n = pulled_message k -> n = k.
Proof.
  unfold pulled_message. intros H. apply String.app_inj in H.
  apply app_inj_r in H. now apply numToString_inj.
Qed.

(** Once ready, the workflow shows one message, chosen by the count the
    driver's [pull] gave. *)
Lemma pull_ready_message h p r p' evs n :
  pullChangesFromRemote_ready E h p = (r, p', evs) ->
  In (EvPull (Resolved n)) evs ->
  let expected := if (0 <? n)%Z then pulled_message n else up_to_date_message in
  message_shown expected evs /\ forall m, message_shown m evs -> m = expected.
Proof.
  intros H. wp_start. unfold message_shown, pulled_message, up_to_date_message. wp_run.
  all: intros Hin; in_split; ev_inj; try discriminate.
  all: match goal with H : Z.ltb _ _ = _ |- _ => rewrite H end.
  all: cbv zeta; split; [in_find | intros m Hm; in_split; ev_inj; reflexivity].
Qed.

(** Once ready, conflicts found after the pull are reported as an error
    and nothing else: no report is written or opened, the state ends
    [idle]. *)
Lemma pull_ready_conflicts h p r p' evs s :
  pullChangesFromRemote_ready E h p = (r, p', evs) ->
  In (EvStatus PostPullCheck (Resolved s)) evs ->
  conflicted_files s <> [] ->
  error_shown (conflict_count_error s) evs
  /\ (forall e, In e evs ->
        match e with
        | EvAdapterWrite _ _ _ | EvOpenLinkText _ _ _ | EvStatusBarDisplay conflicted => False
        | _ => True
        end)
  /\ r = Resolved tt /\ state p' = Some idle.
Proof.
  intros H. wp_start. unfold error_shown, conflict_count_error. wp_run.
  all: intros Hin Hne; in_split; ev_inj; try discriminate.
  all: try (apply nonempty_length_pos in Hne; congruence).
  all: split; [split; in_find|].
  all: split; [|split; reflexivity].
  all: intros e He; in_split; subst; exact I.
Qed.

(** C4: in a run of the pull workflow where the driver's [pull] gave 0,
    the up-to-date message is shown and no pulled-files message is; where it
    gave a positive count, the pulled-files message with that count is
    shown, with no other count, and the up-to-date message is not. *)
Theorem pull_message_by_count h p r p' evs n :
  pullChangesFromRemote E h p = (r, p', evs) ->
  In (EvPull (Resolved n)) evs ->
  (n = 0 ->
     message_shown up_to_date_message evs
     /\ forall k, ~ message_shown (pulled_message k) evs)
  /\ (0 < n ->
     message_shown (pulled_message n) evs
     /\ ~ message_shown up_to_date_message evs
     /\ forall k, message_shown (pulled_message k) evs -> k = n).
Proof.
  intros Hrun Hin.
  destruct (when_ready_body E _ _ _ _ _ _ _ Hrun Hin eq_refl)
    as (ev1 & p1 & ev2 & -> & Hinit & _ & _ & _ & _ & Hbody & Hin2).
  destruct (pull_ready_message _ _ _ _ _ _ Hbody Hin2) as [Hshown Honly].
  assert (Hall : forall m, message_shown m (ev1 ++ ev2) -> message_shown m ev2).
  { intros m Hm. apply in_app_or in Hm as [Hm|Hm]; [|exact Hm].
    exfalso. exact (init_prefix_not_in _ _ Hinit (message_not_init m) Hm). }
  split.
  - intros ->. cbn in Hshown, Honly. split.
    + apply in_or_app. now right.
    + intros k Hk. apply Hall, Honly in Hk. discriminate Hk.
  - intros Hpos. apply Z.ltb_lt in Hpos. rewrite Hpos in Hshown, Honly.
    split; [apply in_or_app; now right|]. split.
    + intros Hk. apply Hall, Honly in Hk. discriminate Hk.
    + intros k Hk. apply Hall, Honly in Hk. now apply pulled_message_inj.
Qed.

End Pull.

(** ** The backup workflow *)

Section Backup.

Variable E : Env.

Lemma init_event_preamble e : init_event e = true -> preamble_event e = true.
Proof. destruct e as [| |[]| | | | | | | | |[]| | | | |]; cbn; congruence. Qed.

Lemma preamble_not_in pre e :
  Forall (fun e => preamble_event e = true) pre -> preamble_event e = false -> ~ In e pre.
Proof.
  intros Hall He Hin. rewrite List.Forall_forall in Hall.
  apply Hall in Hin. congruence.
Qed.

Lemma message_not_preamble m :
  preamble_event (EvConsoleLog ("git obsidian message: " +:+ m)) = false.
Proof. unfold preamble_event. now rewrite prefix_app. Qed.

Lemma never_commits_app pre ev2 :
  Forall (fun e => preamble_event e = true) pre -> never_commits ev2 ->
  never_commits (pre ++ ev2).
Proof.
  intros Hpre H message c Hin. apply in_app_or in Hin as [Hin|Hin]; [|now apply H in Hin].
  exact (preamble_not_in _ (EvCommitAll message c) Hpre eq_refl Hin).
Qed.

Lemma never_pushes_app pre ev2 :
  Forall (fun e => preamble_event e = true) pre -> never_pushes ev2 ->
  never_pushes (pre ++ ev2).
Proof.
  intros Hpre H c Hin. apply in_app_or in Hin as [Hin|Hin]; [|now apply H in Hin].
  exact (preamble_not_in _ (EvPush c) Hpre eq_refl Hin).
Qed.

Lemma never_pulls_app pre ev2 :
  Forall (fun e => preamble_event e = true) pre -> never_pulls ev2 ->
  never_pulls (pre ++ ev2).
Proof.
  intros Hpre H c Hin. apply in_app_or in Hin as [Hin|Hin]; [|now apply H in Hin].
  exact (preamble_not_in _ (EvPull c) Hpre eq_refl Hin).
Qed.

Lemma error_shown_app m ev1 ev2 : error_shown m ev2 -> error_shown m (ev1 ++ ev2).
Proof. intros [H1 H2]. split; apply in_or_app; now right. Qed.

Lemma message_shown_app m ev1 ev2 : message_shown m ev2 -> message_shown m (ev1 ++ ev2).
Proof. intros H. apply in_or_app. now right. Qed.


(** *** The two phases of [createBackup_ready] *)


Lemma commit_push_asks_status m h p r p' evs :
  createBackup_commit_push E m h p = (r, p', evs) ->
  gitManager p <> None ->
  exists sr, In (EvStatus ChangedQuery sr) evs.
Proof.
  intros H. wp_start. wp_run.
  all: intros Hgm; try congruence; eexists; in_find.
Qed.

Lemma cons_app_eq {A} (x : A) l pre t : l = pre ++ t -> x :: l = (x :: pre) ++ t.
Proof. now intros ->. Qed.

Lemma chunk_app_eq {A} (c l pre t : list A) : l = pre ++ t -> c ++ l = (c ++ pre) ++ t.
Proof. intros ->. now rewrite app_assoc. Qed.

(** Write a list of events as what came first followed by a given tail. *)
Ltac split_events :=
  repeat lazymatch goal with
         | |- _ :: _ = _ => apply cons_app_eq
         | |- _ ++ _ = _ => apply chunk_app_eq
         end;
  exact (eq_refl : _ = [] ++ _).

(** A run of [createBackup_ready] is a preamble, followed either by a
    run of [createBackup_commit_push] on the same plugin or by nothing. *)
Lemma backup_ready_run f m h p r p' evs :
  createBackup_ready E f m h p = (r, p', evs) ->
  exists pre ev2,
    evs = pre ++ ev2
    /\ Forall (fun e => preamble_event e = true) pre
    /\ ((exists h1, createBackup_commit_push E m h1 p = (r, p', ev2)) \/ ev2 = []).
Proof.
  intros H. wp_start. wp_run_to_commit.
  all: try (apply wp_intro; intros r2 p2 ev2 Hphase).
  all: eexists; eexists; (split; [split_events|]).
  all: (split; [apply List.Forall_forall; intros e He; in_split; subst; reflexivity|]).
  all: first [ left; eexists; exact Hphase | right; reflexivity ].
Qed.

(** A run of [createBackup] in which something happened that its
    preamble never does has reached [createBackup_commit_push], and there
    it happened. *)
Lemma backup_commit_phase f m h p r p' evs e :
  createBackup E f m h p = (r, p', evs) ->
  In e evs -> preamble_event e = false ->
  exists pre p1 h1 ev2,
    evs = pre ++ ev2
    /\ Forall (fun e => preamble_event e = true) pre
    /\ settings p1 = settings p
    /\ createBackup_commit_push E m h1 p1 = (r, p', ev2)
    /\ In e ev2.
Proof.
  intros Hrun Hin He.
  assert (Hi : init_event e = false).
  { destruct (init_event e) eqn:Hi; [|reflexivity].
    apply init_event_preamble in Hi. congruence. }
  destruct (when_ready_body E _ _ _ _ _ _ _ Hrun Hin Hi)
    as (ev1 & p1 & ev2 & -> & Hinit & Hs & _ & _ & _ & Hbody & Hin2).
  apply backup_ready_run in Hbody as (pre & ev3 & -> & Hpre & Hcase).
  assert (Hall : Forall (fun e => preamble_event e = true) (ev1 ++ pre)).
  { apply List.Forall_app. split; [|exact Hpre].
    eapply List.Forall_impl; [|exact Hinit]. apply init_event_preamble. }
  apply in_app_or in Hin2 as [Hin2|Hin2].
  { exfalso. exact (preamble_not_in _ _ Hpre He Hin2). }
  destruct Hcase as [[h1 Hphase] | ->]; [|destruct Hin2].
  exists (ev1 ++ pre), p1, h1, ev3. rewrite app_assoc. auto.
Qed.


(** *** No changed files *)

Lemma commit_push_no_changes m h p r p' evs s :
  createBackup_commit_push E m h p = (r, p', evs) ->
  In (EvStatus ChangedQuery (Resolved s)) evs ->
  changed s = [] ->
  never_commits evs
  /\ message_shown no_changes_message evs
  /\ (disablePush (settings p) = false -> exists info, In (EvBranchInfo info) evs).
Proof.
  intros H. wp_start.
  unfold never_commits, message_shown, no_changes_message. wp_run.
  all: intros Hin Hs; in_split; ev_inj; try discriminate; try answers_clash.
  all: (split; [intros ? ? Hc; in_split; ev_inj; discriminate|]).
  all: (split; [in_find|]).
  all: intros Hpush; try congruence; eexists; in_find.
Qed.

(** C5: in a run of [createBackup] where the status asked for the
    changed files lists none, [commitAll] is never called, "No changes to
    commit" is shown, and with push not disabled the run goes on to ask for
    the branch info, the first step of the push phase. *)
Theorem backup_no_changes_skips_commit f m h p r p' evs s :
  createBackup E f m h p = (r, p', evs) ->
  In (EvStatus ChangedQuery (Resolved s)) evs ->
  changed s = [] ->
  never_commits evs
  /\ message_shown no_changes_message evs
  /\ (disablePush (settings p) = false -> exists info, In (EvBranchInfo info) evs).
Proof.
  intros Hrun Hin Hs.
  destruct (backup_commit_phase _ _ _ _ _ _ _ _ Hrun Hin eq_refl)
    as (pre & p1 & h1 & ev2 & -> & Hpre & Hset & Hphase & Hin2).
  destruct (commit_push_no_changes _ _ _ _ _ _ _ Hphase Hin2 Hs) as (Hc & Hm & Hb).
  split; [now apply never_commits_app|].
  split; [now apply message_shown_app|].
  intros Hpush. rewrite <- Hset in Hpush. destruct (Hb Hpush) as [info Hinfo].
  exists info. apply in_or_app. now right.
Qed.

(** *** No upstream branch *)

Lemma commit_push_no_upstream m h p r p' evs info :
  createBackup_commit_push E m h p = (r, p', evs) ->
  In (EvBranchInfo (Resolved info)) evs ->
  remote info = None ->
  error_shown no_upstream_error evs
  /\ In (EvConsoleLog ("git obsidian error: " +:+ no_upstream_error)) evs
  /\ never_pushes evs
  /\ r = Resolved tt /\ state p' = Some idle.
Proof.
  intros H. wp_start.
  unfold never_pushes, error_shown, no_upstream_error. wp_run.
  all: intros Hin Hs; in_split; ev_inj; try discriminate; try answers_clash.
  all: (split; [split; in_find|]).
  all: (split; [in_find|]).
  all: (split; [intros ? Hc; in_split; ev_inj; discriminate|]).
  all: split; reflexivity.
Qed.

(** C6: in a run of [createBackup] where the branch info has no remote,
    the no-upstream error is shown, [push] is never called, and the run
    ends normally in state [idle]. *)
Theorem backup_no_upstream_stops f m h p r p' evs info :
  createBackup E f m h p = (r, p', evs) ->
  In (EvBranchInfo (Resolved info)) evs ->
  remote info = None ->
  error_shown no_upstream_error evs
  /\ never_pushes evs
  /\ r = Resolved tt /\ state p' = Some idle.
Proof.
  intros Hrun Hin Hs.
  destruct (backup_commit_phase _ _ _ _ _ _ _ _ Hrun Hin eq_refl)
    as (pre & p1 & h1 & ev2 & -> & Hpre & _ & Hphase & Hin2).
  destruct (commit_push_no_upstream _ _ _ _ _ _ _ Hphase Hin2 Hs) as (He & _ & Hp & Hr).
  split; [now apply error_shown_app|].
  split; [now apply never_pushes_app|exact Hr].
Qed.

(** *** Pushing only when ahead of the upstream *)

Lemma commit_push_only_when_ahead m h p r p' evs :
  createBackup_commit_push E m h p = (r, p', evs) ->
  (forall c, In (EvPush c) evs -> In (EvCanPush (Resolved true)) evs)
  /\ (In (EvCanPush (Resolved false)) evs ->
      never_pulls evs /\ never_pushes evs
      /\ message_shown no_push_message evs
      /\ r = Resolved tt /\ state p' = Some idle).
Proof.
  intros H. wp_start.
  unfold never_pulls, never_pushes, message_shown, no_push_message. wp_run.
  all: split; [intros c Hin; in_split; ev_inj; try discriminate; in_find|].
  all: intros Hin; in_split; ev_inj; try discriminate.
  all: (split; [intros ? Hc; in_split; ev_inj; discriminate|]).
  all: (split; [intros ? Hc; in_split; ev_inj; discriminate|]).
  all: (split; [in_find|]).
  all: split; reflexivity.
Qed.

(** C7: in a run of [createBackup], [push] is called only after
    [canPush] answered true; and where [canPush] answered false there is no
    pull and no push, "No changes to push" is shown, and the run ends
    normally in state [idle]. *)
Theorem backup_pushes_only_when_ahead f m h p r p' evs :
  createBackup E f m h p = (r, p', evs) ->
  (forall c, In (EvPush c) evs -> In (EvCanPush (Resolved true)) evs)
  /\ (In (EvCanPush (Resolved false)) evs ->
      never_pulls evs /\ never_pushes evs
      /\ message_shown no_push_message evs
      /\ r = Resolved tt /\ state p' = Some idle).
Proof.
  intros Hrun. split.
  - intros c Hin.
    destruct (backup_commit_phase _ _ _ _ _ _ _ _ Hrun Hin eq_refl)
      as (pre & p1 & h1 & ev2 & -> & Hpre & _ & Hphase & Hin2).
    apply in_or_app. right.
    now apply (proj1 (commit_push_only_when_ahead _ _ _ _ _ _ Hphase) c).
  - intros Hin.
    destruct (backup_commit_phase _ _ _ _ _ _ _ _ Hrun Hin eq_refl)
      as (pre & p1 & h1 & ev2 & -> & Hpre & _ & Hphase & Hin2).
    destruct (proj2 (commit_push_only_when_ahead _ _ _ _ _ _ Hphase) Hin2)
      as (Hpull & Hpush & Hm & Hr).
    split; [now apply never_pulls_app|].
    split; [now apply never_pushes_app|].
    split; [now apply message_shown_app|exact Hr].
Qed.

(** *** An automatic backup that finds conflicts *)


(** Whatever the vault holds, the bullet drawn up for a path is the
    link of the file found there or names the path itself. *)
Lemma conflict_bullet_cases h e :
  conflict_bullet E h e = "- Not a file: " +:+ e
  \/ exists link, conflict_bullet E h e = "- [[" +:+ link +:+ "]]".
Proof.
  unfold conflict_bullet.
  destruct (env_getAbstractFileByPath E h e) as [[f|f]|]; eauto.
Qed.

Lemma conflict_lines_length h paths :
  length (conflict_lines E h paths) = (2 + length paths)%nat.
Proof. unfold conflict_lines. cbn. now rewrite length_map. Qed.

(** *** A manual backup *)



End Backup.

(** ** Concrete runs *)

Section Runs.

Import Samples.

Ltac in_list := cbv; repeat first [ left; reflexivity | right ].

(** The first scenario of the specification: one changed file, no
    conflict, upstream set, commits to push, the pull brings nothing. *)
Example clean_backup_scenario :
  createBackup env_clean true None [] plugin_ready
  = (Resolved tt, plugin_ready,
     [ EvStatus ConflictCheck (Resolved one_changed);
       EvStatus ChangedQuery (Resolved one_changed);
       EvCommitAll None (Resolved 1);
       EvStatusBarMessage "committed 1 files" 4000;
       EvNotice "Committed 1 files";
       EvConsoleLog "git obsidian message: Committed 1 files";
       EvBranchInfo (Resolved {| current := "master"; remote := Some "origin/master" |});
       EvCanPush (Resolved true);
       EvPull (Resolved 0);
       EvStatus PrePushCheck (Resolved one_changed);
       EvPush (Resolved 1);
       EvStatusBarMessage "pushed 1 files to remote" 4000;
       EvNotice "Pushed 1 files to remote";
       EvConsoleLog "git obsidian message: Pushed 1 files to remote";
       EvStatusBarDisplay idle ]).
Proof. vm_compute. reflexivity. Qed.

(** The second: an automatic backup over two conflicted files writes a
    report with two bullets. *)
Example conflict_report_scenario :
  In (EvAdapterWrite conflictOutputFile
        (join nl [ "# Conflict files";
                   "Please resolve them and commit per command (This file will be deleted before the commit).";
                   "- Not a file: b.md";
                   "- Not a file: c.md" ])
        (Resolved tt))
     (events_of run_auto_conflicts).
Proof. in_list. Qed.

(** A repository that answers "wrong-settings": the plugin ends ready. *)
Lemma init_wrong_settings_run :
  In (EvCheckRequirements (Resolved "wrong-settings")) (events_of run_init_wrong_settings)
  /\ gitReady (plugin_of run_init_wrong_settings) = true
  /\ state (plugin_of run_init_wrong_settings) = Some idle.
Proof.
  assert (Hin : In (EvCheckRequirements (Resolved "wrong-settings"))
                   (events_of run_init_wrong_settings)) by in_list.
  destruct (init_wrong_settings_falls_through env_wrong_settings [] plugin0 _ _ _
              (run_parts run_init_wrong_settings) Hin) as (_ & _ & Hready & Hstate & _).
  split; [exact Hin|]. split; assumption.
Defined.

(** C1, as stated, fails on "wrong-settings": the run of [init] shows the
    error and leaves the plugin ready and idle. *)
Lemma init_wrong_settings_leaves_ready :
  run_init_wrong_settings
  = (Resolved tt,
     set_state idle (set_gitReady true (set_gitManager SimpleGit plugin0)),
     [ EvNewBackend SimpleGit;
       EvCheckRequirements (Resolved "wrong-settings");
       EvNotice "Not all of the required standalone mode settings are set";
       EvConsoleLog
         "git obsidian error: Not all of the required standalone mode settings are set";
       EvStatusBarMessage "not all of the required standalone mode settings are set" 0;
       EvStatusBarDisplay idle ]).
Proof. reflexivity. Qed.

(** A driver that answers "no-network". *)
Lemma init_odd_result_run :
  In (EvCheckRequirements (Resolved "no-network")) (events_of run_init_odd_result)
  /\ gitReady (plugin_of run_init_odd_result) = false
  /\ state (plugin_of run_init_odd_result) = None
  /\ Forall (fun e => visible_or_arming e = false) (events_of run_init_odd_result).
Proof.
  assert (Hin : In (EvCheckRequirements (Resolved "no-network"))
                   (events_of run_init_odd_result)) by in_list.
  destruct (init_undocumented_result env_odd_result [] plugin0 _ _ _ "no-network"
              (run_parts run_init_odd_result) Hin)
    as (_ & Hready & Hstate & _ & _ & _ & _ & Hquiet);
    try discriminate.
  split; [exact Hin|]. split; [exact Hready|]. split; [exact Hstate|exact Hquiet].
Defined.

(** A pull that updates three files. *)
Lemma pull_three_files_run :
  In (EvPull (Resolved 3)) (events_of run_pull_three)
  /\ 0 < 3
  /\ message_shown (pulled_message 3) (events_of run_pull_three)
  /\ ~ message_shown up_to_date_message (events_of run_pull_three).
Proof.
  assert (Hin : In (EvPull (Resolved 3)) (events_of run_pull_three)) by in_list.
  destruct (pull_message_by_count env_pulled [] plugin_ready _ _ _ 3
              (run_parts run_pull_three) Hin) as [_ Hpos].
  destruct (Hpos eq_refl) as (Hshown & Hnot & _).
  split; [exact Hin|]. split; [reflexivity|]. split; assumption.
Defined.


(** A backup with nothing changed and no upstream. *)
Lemma backup_nothing_changed_run :
  In (EvStatus ChangedQuery (Resolved nothing_changed)) (events_of run_no_upstream)
  /\ changed nothing_changed = []
  /\ never_commits (events_of run_no_upstream)
  /\ message_shown no_changes_message (events_of run_no_upstream)
  /\ exists info, In (EvBranchInfo info) (events_of run_no_upstream).
Proof.
  assert (Hin : In (EvStatus ChangedQuery (Resolved nothing_changed))
                   (events_of run_no_upstream)) by in_list.
  destruct (backup_no_changes_skips_commit env_no_upstream true None [] plugin0 _ _ _ _
              (run_parts run_no_upstream) Hin eq_refl) as (Hc & Hm & Hb).
  split; [exact Hin|]. split; [reflexivity|].
  split; [exact Hc|]. split; [exact Hm|exact (Hb eq_refl)].
Defined.

Lemma backup_no_upstream_run :
  In (EvBranchInfo (Resolved {| current := "master"; remote := None |}))
     (events_of run_no_upstream)
  /\ error_shown no_upstream_error (events_of run_no_upstream)
  /\ never_pushes (events_of run_no_upstream)
  /\ state (plugin_of run_no_upstream) = Some idle.
Proof.
  assert (Hin : In (EvBranchInfo (Resolved {| current := "master"; remote := None |}))
                   (events_of run_no_upstream)) by in_list.
  destruct (backup_no_upstream_stops env_no_upstream true None [] plugin0 _ _ _ _
              (run_parts run_no_upstream) Hin eq_refl) as (He & Hp & _ & Hstate).
  split; [exact Hin|]. split; [exact He|]. split; assumption.
Defined.

(** A backup with nothing to push. *)
Lemma backup_not_ahead_run :
  In (EvCanPush (Resolved false)) (events_of run_not_ahead)
  /\ never_pulls (events_of run_not_ahead) /\ never_pushes (events_of run_not_ahead)
  /\ message_shown no_push_message (events_of run_not_ahead).
Proof.
  assert (Hin : In (EvCanPush (Resolved false)) (events_of run_not_ahead)) by in_list.
  destruct (backup_pushes_only_when_ahead env_not_ahead false None [] plugin0 _ _ _
              (run_parts run_not_ahead)) as [_ Hno].
  destruct (Hno Hin) as (Hpull & Hpush & Hm & _).
  split; [exact Hin|]. split; [exact Hpull|]. split; assumption.
Defined.

End Runs.

(** ** More on running a workflow *)

Section Display.

Variable P : Event -> Prop.

Lemma setState_events_Forall s p :
  (isMobile p = false -> P (EvStatusBarDisplay s)) ->
  Forall P (setState_events s p).
Proof.
  unfold setState_events. destruct (isMobile p); cbn; intros H; repeat constructor; auto.
Qed.

Lemma displayMessage_events_Forall p m t :
  (isMobile p = false -> P (EvStatusBarMessage (toLowerCase m) t)) ->
  (disablePopups (settings p) = false -> P (EvNotice m)) ->
  P (EvConsoleLog ("git obsidian message: " +:+ m)) ->
  Forall P (displayMessage_events p m t).
Proof.
  unfold displayMessage_events.
  destruct (isMobile p), (disablePopups (settings p)); cbn; intros H1 H2 H3;
    repeat constructor; auto.
Qed.

Lemma displayError_events_Forall p m t :
  (isMobile p = false -> P (EvStatusBarMessage (toLowerCase m) t)) ->
  P (EvNotice m) ->
  P (EvConsoleLog ("git obsidian error: " +:+ m)) ->
  Forall P (displayError_events p m t).
Proof.
  unfold displayError_events. destruct (isMobile p); cbn; intros H1 H2 H3;
    repeat constructor; auto.
Qed.

End Display.

(** Reduce a statement about every event of a run to one about each
    event, with what is known of the flags when it is shown. *)
Ltac forall_events :=
  repeat lazymatch goal with
         | |- Forall _ [] => apply Forall_nil
         | |- Forall _ (_ :: _) => apply List.Forall_cons
         | |- Forall _ (_ ++ _) => apply List.Forall_app; split
         | |- Forall _ (setState_events _ _) => apply setState_events_Forall; intros ?
         | |- Forall _ (displayMessage_events _ _ _) =>
             apply displayMessage_events_Forall; [intros ? | intros ? | ]
         | |- Forall _ (displayError_events _ _ _) =>
             apply displayError_events_Forall; [intros ? | | ]
         end.

(** Write a list of events as what came first followed by its last one. *)
Ltac split_last :=
  repeat lazymatch goal with
         | |- [_] = _ => fail
         | |- _ :: _ = _ => apply cons_app_eq
         | |- _ ++ _ = _ => apply chunk_app_eq
         end;
  exact (eq_refl : _ = [] ++ _).

Section Gateway.

Variable E : Env.

(** The run of [when_ready body], case by case. *)
Lemma when_ready_cases body h p r p' evs :
  when_ready E body h p = (r, p', evs) ->
  (gitReady p = true /\ body h p = (r, p', evs))
  \/ (gitReady p = false
      /\ exists r1 p1 ev1,
           init E h p = (r1, p1, ev1)
           /\ ((exists err, r1 = Rejected err /\ r = Rejected err /\ p' = p1 /\ evs = ev1)
               \/ (r1 = Resolved tt /\ gitReady p1 = false
                   /\ r = Resolved tt /\ p' = p1 /\ evs = ev1)
               \/ (r1 = Resolved tt /\ gitReady p1 = true
                   /\ exists ev2, body (h ++ ev1) p1 = (r, p', ev2) /\ evs = ev1 ++ ev2))).
Proof.
  unfold when_ready, bind, get, when, ret. cbn -[init].
  destruct (gitReady p) eqn:Hready; cbn -[init].
  - rewrite Hready. cbn. rewrite !app_nil_r.
    destruct (body h p) as [[r2 p2] ev2] eqn:Hbody. intros [= <- <- <-].
    left. now split.
  - rewrite !app_nil_r. intros Hrun. right. split; [reflexivity|].
    destruct (init E h p) as [[[[]|e] p1] ev1] eqn:Hinit; cbn in Hrun.
    + exists (Resolved tt), p1, ev1. split; [reflexivity|].
      destruct (gitReady p1) eqn:Hready1; cbn in Hrun.
      * rewrite !app_nil_r in Hrun.
        destruct (body (h ++ ev1) p1) as [[r2 p2] ev2] eqn:Hbody.
        injection Hrun as <- <- <-. right. right.
        repeat split. exists ev2. now split.
      * rewrite ?app_nil_r in Hrun. injection Hrun as <- <- <-. right. left.
        now repeat split.
    + rewrite ?app_nil_r in Hrun. injection Hrun as <- <- <-.
      exists (Rejected e), p1, ev1.
      split; [reflexivity|]. left. exists e. now repeat split.
Qed.

(** *** More on [init] *)

Lemma init_allowed h p r p' evs :
  init E h p = (r, p', evs) -> Forall (init_may p) evs.
Proof.
  intros H. wp_start. unfold selected_backend. wp_run.
  all: forall_events; cbn; unfold init_errors; cbn; auto 8.
  all: try (split; [assumption | reflexivity]).
  all: try (left; eexists; split; [|reflexivity]; cbn; auto 6).
  all: try (right; eexists; reflexivity).
  all: split;
    [ repeat match goal with H : Z.ltb _ _ = true |- _ => apply Z.ltb_lt in H end; lia
    | auto ].
Qed.

End Gateway.

Lemma disableAutoBackup_armed p id :
  intervalIDBackup p = Some id -> id <> 0 -> disableAutoBackup p = (true, Some id).
Proof.
  intros Hid Hne. unfold disableAutoBackup, truthy_handle. rewrite Hid.
  destruct (Z.eqb_spec id 0) as [Heq|_]; [contradiction|reflexivity].
Qed.

Lemma disableAutoPull_armed p id :
  intervalIDPull p = Some id -> id <> 0 -> disableAutoPull p = (true, Some id).
Proof.
  intros Hid Hne. unfold disableAutoPull, truthy_handle. rewrite Hid.
  destruct (Z.eqb_spec id 0) as [Heq|_]; [contradiction|reflexivity].
Qed.

Section MoreInit.

Variable E : Env.

(** Where the readiness check rejects, [init] rejects with its error,
    right there. *)
Lemma init_rejection h p r p' evs e err :
  init E h p = (r, p', evs) ->
  In e evs -> rejection_of e = Some err ->
  r = Rejected err /\ exists pre, evs = pre ++ [e].
Proof.
  intros H. wp_start. wp_run.
  all: intros Hin Hrej; in_split; subst; try discriminate Hrej.
  all: injection Hrej as <-; split; [reflexivity | eexists; split_last].
Qed.

(** A run of [init] that does not end ready has changed nothing but the
    driver. *)
Lemma init_not_ready h p r p' evs :
  init E h p = (r, p', evs) ->
  gitReady p' = false ->
  same_but_gitManager p p'.
Proof.
  intros H. wp_start. unfold same_but_gitManager. wp_run.
  all: cbn; intros Hready; try discriminate Hready; repeat split; assumption.
Qed.

Lemma init_rejected_plugin h p p' evs err :
  init E h p = (Rejected err, p', evs) ->
  same_but_gitManager p p'.
Proof.
  intros H. remember (Rejected err) as r eqn:Hr. revert Hr. wp_start.
  unfold same_but_gitManager. wp_run.
  all: cbn; intros Hr; try discriminate Hr; repeat split; reflexivity.
Qed.

(** X1: where the readiness check answers "valid" and [init] starts no
    task (it enqueues nothing, or the queue is running), [init] resolves
    with the plugin ready and idle on the selected driver, shows no
    notice, puts a pull at the end of the queue exactly when pull-on-boot
    is set, and arms the backup timer and the pull timer exactly when
    their intervals are positive. *)
Theorem init_valid_arms_what_is_configured h p r p' evs :
  init E h p = (r, p', evs) ->
  In (EvCheckRequirements (Resolved "valid")) evs ->
  enqueue_waits p ->
  r = Resolved tt
  /\ gitReady p' = true
  /\ state p' = Some idle
  /\ gitManager p' = Some (selected_backend p)
  /\ settings p' = settings p
  /\ promiseQueue p'
     = promiseQueue p ++ (if autoPullOnBoot (settings p) then [TaskPull] else [])
  /\ ((exists ms id, In (EvSetInterval (TaskBackup true) ms id) evs)
      <-> 0 < autoSaveInterval (settings p))
  /\ ((exists ms id, In (EvSetInterval TaskPull ms id) evs)
      <-> 0 < autoPullInterval (settings p))
  /\ (forall m, ~ In (EvNotice m) evs).
Proof.
  intros H. wp_start. unfold selected_backend. wp_run.
  all: intros Hin _; in_split; ev_inj; try discriminate; str_facts; try congruence.
  all: repeat match goal with
              | H : Z.ltb _ _ = true |- _ => apply Z.ltb_lt in H
              | H : Z.ltb _ _ = false |- _ => apply Z.ltb_ge in H
              end.
  all: repeat match goal with H : autoPullOnBoot _ = _ |- _ => rewrite H end.
  all: cbv iota; rewrite ?app_nil_r.
  all: (split; [reflexivity|]); (split; [reflexivity|]); (split; [reflexivity|]);
       (split; [reflexivity|]); (split; [reflexivity|]); (split; [reflexivity|]).
  all: split;
    [ split; [ intros (ms & id & Hset); in_split; ev_inj; try discriminate; lia
             | intros Hpos; try lia; eexists; eexists; in_find ] | ].
  all: split;
    [ split; [ intros (ms & id & Hset); in_split; ev_inj; try discriminate; lia
             | intros Hpos; try lia; eexists; eexists; in_find ] | ].
  all: intros m Hn; in_split; ev_inj; discriminate.
Qed.

(** X2: every timer that [init] arms has a positive period, the configured
    minutes times 60000, is registered with the host under the handle it
    got, and that handle is the one the plugin keeps for its kind of task:
    unless the handle is 0, the matching [disableAuto...] method then
    answers [true] and clears exactly this timer. *)
Theorem init_timers_are_registered h p r p' evs t ms id :
  init E h p = (r, p', evs) ->
  In (EvSetInterval t ms id) evs ->
  0 < ms
  /\ In (EvRegisterInterval id) evs
  /\ gitReady p' = true
  /\ ((t = TaskBackup true /\ ms = autoSaveInterval (settings p) * 60000
       /\ intervalIDBackup p' = Some id
       /\ (id <> 0 -> disableAutoBackup p' = (true, Some id)))
      \/ (t = TaskPull /\ ms = autoPullInterval (settings p) * 60000
          /\ intervalIDPull p' = Some id
          /\ (id <> 0 -> disableAutoPull p' = (true, Some id)))).
Proof.
  intros H. wp_start. wp_run.
  all: intros Hin; in_split; ev_inj; try discriminate.
  all: repeat match goal with
              | H : Z.ltb _ _ = true |- _ => apply Z.ltb_lt in H
              end.
  all: (split; [lia|]); (split; [in_find|]); (split; [reflexivity|]).
  all: first
    [ left; (split; [reflexivity|]); (split; [reflexivity|]); (split; [reflexivity|]);
      apply disableAutoBackup_armed; reflexivity
    | right; (split; [reflexivity|]); (split; [reflexivity|]); (split; [reflexivity|]);
      apply disableAutoPull_armed; reflexivity ].
Qed.

End MoreInit.

(** ** More on the backup workflow *)

Ltac flags_simpl :=
  cbn [gitManager settings state intervalIDBackup intervalIDPull gitReady
       promiseQueue isMobile set_gitManager set_state set_gitReady
       set_intervalIDBackup set_intervalIDPull push_task] in *.

Ltac known_driver :=
  repeat match goal with
         | H : gitManager ?p = _ |- context [gitManager ?p] => rewrite H
         end.

Section MoreBackup.

Variable E : Env.

Lemma commit_push_allowed f m h p r p' evs :
  createBackup_commit_push E m h p = (r, p', evs) ->
  Forall (backup_may (instanceof_SimpleGit (gitManager p)) (settings p) (isMobile p) f m) evs.
Proof.
  intros H. wp_start. wp_run.
  all: forall_events; flags_simpl; unfold backup_may; known_driver;
    try solve [ reflexivity | assumption | split; assumption | right; assumption
              | split; [assumption | auto]
              | left; unfold backup_error; eauto ].
Qed.

Lemma commit_push_settled m h p r p' evs :
  createBackup_commit_push E m h p = (r, p', evs) ->
  settled p r p' evs.
Proof.
  intros H. wp_start. unfold settled, same_but_state. wp_run.
  all: split; [repeat split; first [reflexivity | assumption | symmetry; assumption]|].
  all: try reflexivity.
  all: first
    [ left; split; [reflexivity | intros ? ? ? Hw; in_split; ev_inj; discriminate]
    | right; split; [reflexivity | eexists; eexists; in_find] ].
Qed.

Lemma commit_push_rejection m h p r p' evs e err :
  createBackup_commit_push E m h p = (r, p', evs) ->
  In e evs -> rejection_of e = Some err ->
  r = Rejected err /\ exists pre, evs = pre ++ [e].
Proof.
  intros H. wp_start. wp_run.
  all: intros Hin Hrej; in_split; subst; try discriminate Hrej.
  all: injection Hrej as <-; split; [reflexivity | eexists; split_last].
Qed.

Lemma commit_push_write_failed m h p r p' evs path text err :
  createBackup_commit_push E m h p = (r, p', evs) ->
  In (EvAdapterWrite path text (Rejected err)) evs ->
  r = Resolved tt /\ state p' = Some conflicted
  /\ forall l s n, ~ In (EvOpenLinkText l s n) evs.
Proof.
  intros H. wp_start. wp_run.
  all: intros Hin; in_split; ev_inj; try discriminate.
  all: split; [reflexivity|]; split; [reflexivity|].
  all: intros ? ? ? Ho; in_split; ev_inj; discriminate.
Qed.

Lemma commit_push_reports m h p r p' evs :
  createBackup_commit_push E m h p = (r, p', evs) ->
  (forall n, In (EvCommitAll m (Resolved n)) evs ->
     message_shown (committed_message n) evs)
  /\ (forall n, In (EvPush (Resolved n)) evs ->
     message_shown (pushed_message n) evs /\ r = Resolved tt /\ state p' = Some idle)
  /\ (forall n, In (EvPull (Resolved n)) evs ->
     (message_shown (pulled_from_remote_message n) evs <-> 0 < n)).
Proof.
  intros H. wp_start.
  unfold message_shown, committed_message, pushed_message, pulled_from_remote_message.
  wp_run.
  all: split; [intros n Hin; in_split; ev_inj; try discriminate; in_find|].
  all: split; [intros n Hin; in_split; ev_inj; try discriminate;
               (split; [in_find | split; reflexivity])|].
  all: intros n Hin; in_split; ev_inj; try discriminate.
  all: repeat match goal with
              | H : Z.ltb _ _ = true |- _ => apply Z.ltb_lt in H
              | H : Z.ltb _ _ = false |- _ => apply Z.ltb_ge in H
              end.
  all: split; [intros Hm; try assumption; in_split; ev_inj; try discriminate;
               repeat match goal with
                      | H : numToString _ = numToString _ |- _ =>
                          apply numToString_inj in H; subst
                      | H : String.append (numToString _) _ = String.append (numToString _) _
                        |- _ => apply app_inj_r in H
                      end; try lia
              | intros Hpos; try lia; in_find].
Qed.

End MoreBackup.

Section MoreBackupReady.

Variable E : Env.

Lemma settled_cons p r p' e evs :
  (forall path text wr, e <> EvAdapterWrite path text wr) ->
  settled p r p' evs -> settled p r p' (e :: evs).
Proof.
  intros He [Hsame Hr]. split; [exact Hsame|].
  destruct r; [|exact Hr].
  destruct Hr as [[Hst Hno] | [Hst (text & wr & Hw)]].
  - left. split; [exact Hst|]. intros path text wr [Heq|Hin].
    + now apply (He path text wr).
    + now apply (Hno path text wr).
  - right. split; [exact Hst|]. exists text, wr. now right.
Qed.

Lemma backup_ready_allowed f m h p r p' evs :
  createBackup_ready E f m h p = (r, p', evs) ->
  Forall (backup_may (instanceof_SimpleGit (gitManager p)) (settings p) (isMobile p) f m) evs.
Proof.
  intros H.
  set (P := backup_may (instanceof_SimpleGit (gitManager p)) (settings p) (isMobile p) f m).
  wp_start. wp_run_to_commit.
  all: try (apply wp_intro; intros r2 p2 ev2 Hphase).
  all: forall_events;
    try (let Hall := fresh in
         epose proof (commit_push_allowed E _ _ _ _ _ _ _ Hphase) as Hall;
         repeat match goal with
                | Hk : gitManager ?q = _ |- _ => rewrite Hk in Hall
                end;
         exact Hall).
  all: subst P; flags_simpl; unfold backup_may; known_driver;
    try solve [ reflexivity | assumption | split; assumption | right; assumption
              | split; [assumption | auto]
              | split; [assumption | split; reflexivity]
              | left; unfold backup_error; eauto ].
Qed.

Lemma backup_ready_settled f m h p r p' evs :
  createBackup_ready E f m h p = (r, p', evs) ->
  settled p r p' evs.
Proof.
  intros H. wp_start. wp_run_to_commit.
  all: try (apply wp_intro; intros r2 p2 ev2 Hphase;
            apply commit_push_settled in Hphase;
            repeat (apply settled_cons; [discriminate|]); exact Hphase).
  all: unfold settled, same_but_state.
  all: split; [repeat split; first [reflexivity | assumption | symmetry; assumption]|].
  all: try reflexivity.
  all: right; split; [reflexivity | eexists; eexists; in_find].
Qed.

Lemma backup_ready_rejection f m h p r p' evs e err :
  createBackup_ready E f m h p = (r, p', evs) ->
  In e evs -> rejection_of e = Some err ->
  r = Rejected err /\ exists pre, evs = pre ++ [e].
Proof.
  intros H. wp_start. wp_run_to_commit.
  all: try (apply wp_intro; intros r2 p2 ev2 Hphase).
  all: intros Hin Hrej; in_split; subst; try discriminate Hrej.
  all: try (destruct (commit_push_rejection _ _ _ _ _ _ _ _ _ Hphase Hin Hrej)
              as [Hr [pre Hpre]];
            split; [exact Hr | rewrite Hpre; eexists; split_last]).
  all: injection Hrej as <-; split; [reflexivity | eexists; split_last].
Qed.

Lemma backup_ready_write_failed f m h p r p' evs path text err :
  createBackup_ready E f m h p = (r, p', evs) ->
  In (EvAdapterWrite path text (Rejected err)) evs ->
  r = Resolved tt /\ state p' = Some conflicted
  /\ forall l s n, ~ In (EvOpenLinkText l s n) evs.
Proof.
  intros H. wp_start. wp_run_to_commit.
  all: try (apply wp_intro; intros r2 p2 ev2 Hphase).
  all: intros Hin; in_split; ev_inj; try discriminate.
  all: try (destruct (commit_push_write_failed _ _ _ _ _ _ _ _ _ _ Hphase Hin)
              as (Hr & Hst & Hno);
            split; [exact Hr|]; split; [exact Hst|];
            intros l s n Ho; in_split; ev_inj; try discriminate;
            exact (Hno _ _ _ Ho)).
  all: split; [reflexivity|]; split; [reflexivity|].
  all: intros ? ? ? Ho; in_split; ev_inj; discriminate.
Qed.

End MoreBackupReady.

(** ** More on the pull workflow *)

Section MorePull.

Variable E : Env.

Lemma pull_ready_allowed h p r p' evs :
  pullChangesFromRemote_ready E h p = (r, p', evs) ->
  Forall (pull_may (instanceof_SimpleGit (gitManager p)) (settings p) (isMobile p)) evs.
Proof.
  intros H. wp_start. wp_run.
  all: forall_events; flags_simpl; unfold pull_may; known_driver;
    try solve [ reflexivity | assumption | split; assumption | right; assumption
              | split; [assumption | reflexivity]
              | left; unfold conflict_count_error; eauto ].
Qed.

Lemma pull_ready_settled h p r p' evs :
  pullChangesFromRemote_ready E h p = (r, p', evs) ->
  same_but_state p p'
  /\ match r with
     | Resolved _ => state p' = Some idle
     | Rejected _ => p' = p
     end.
Proof.
  intros H. wp_start. unfold same_but_state. wp_run.
  all: split; [repeat split; first [reflexivity | assumption | symmetry; assumption]
              | reflexivity].
Qed.

Lemma pull_ready_rejection h p r p' evs e err :
  pullChangesFromRemote_ready E h p = (r, p', evs) ->
  In e evs -> rejection_of e = Some err ->
  r = Rejected err /\ exists pre, evs = pre ++ [e].
Proof.
  intros H. wp_start. wp_run.
  all: intros Hin Hrej; in_split; subst; try discriminate Hrej.
  all: injection Hrej as <-; split; [reflexivity | eexists; split_last].
Qed.

End MorePull.

(** ** What every run of a workflow obeys *)

Section Workflows.

Variable E : Env.

Lemma init_rejected_by_check h p p' evs err :
  init E h p = (Rejected err, p', evs) ->
  In (EvCheckRequirements (Rejected err)) evs.
Proof.
  intros H. remember (Rejected err) as r eqn:Hr. revert Hr. wp_start. wp_run.
  all: intros Hr; try discriminate Hr; injection Hr as ->; in_find.
Qed.

Lemma capable_after_init p :
  instanceof_SimpleGit (Some (selected_backend p))
  = negb (standaloneMode (settings p) || isMobile p).
Proof.
  unfold selected_backend. now destruct (standaloneMode (settings p) || isMobile p)%bool.
Qed.

(** A rejection in [init] or in the body is the outcome of the whole. *)
Lemma when_ready_rejection (body : M unit) :
  (forall h p r p' evs e err,
     body h p = (r, p', evs) -> In e evs -> rejection_of e = Some err ->
     r = Rejected err /\ exists pre, evs = pre ++ [e]) ->
  forall h p r p' evs e err,
    when_ready E body h p = (r, p', evs) -> In e evs -> rejection_of e = Some err ->
    r = Rejected err /\ exists pre, evs = pre ++ [e].
Proof.
  intros Hbody h p r p' evs e err Hrun Hin Hrej.
  apply when_ready_cases in Hrun
    as [[_ Hrun] | (_ & r1 & p1 & ev1 & Hinit & Hcase)].
  { exact (Hbody _ _ _ _ _ _ _ Hrun Hin Hrej). }
  destruct Hcase as [(err0 & -> & -> & -> & ->)
                    | [(-> & _ & -> & -> & ->)
                      | (-> & _ & ev2 & Hrun & ->)]].
  - destruct (init_rejection E _ _ _ _ _ _ _ Hinit Hin Hrej) as [Hr Hpre].
    split; [exact Hr | exact Hpre].
  - destruct (init_rejection E _ _ _ _ _ _ _ Hinit Hin Hrej) as [Hr _]. discriminate Hr.
  - apply in_app_or in Hin as [Hin|Hin].
    + destruct (init_rejection E _ _ _ _ _ _ _ Hinit Hin Hrej) as [Hr _]. discriminate Hr.
    + destruct (Hbody _ _ _ _ _ _ _ Hrun Hin Hrej) as [Hr [pre ->]].
      split; [exact Hr|]. exists (ev1 ++ pre). now rewrite app_assoc.
Qed.

(** A workflow whose body keeps [gitReady] and that ends not ready has
    only run [init], which has changed the driver and nothing else. *)
Lemma when_ready_not_ready (body : M unit) :
  (forall h p r p' evs, body h p = (r, p', evs) -> gitReady p' = gitReady p) ->
  forall h p r p' evs,
    when_ready E body h p = (r, p', evs) ->
    gitReady p' = false ->
    init E h p = (r, p', evs)
    /\ same_but_gitManager p p'
    /\ Forall (init_may p) evs
    /\ (r = Resolved tt
        \/ exists err, r = Rejected err /\ In (EvCheckRequirements (Rejected err)) evs).
Proof.
  intros Hbody h p r p' evs Hrun Hnot.
  apply when_ready_cases in Hrun
    as [[Hready Hrun] | (_ & r1 & p1 & ev1 & Hinit & Hcase)].
  { apply Hbody in Hrun. congruence. }
  destruct Hcase as [(err0 & -> & -> & -> & ->)
                    | [(-> & _ & -> & -> & ->)
                      | (-> & Hready1 & ev2 & Hrun & ->)]].
  - split; [exact Hinit|].
    split; [exact (init_rejected_plugin E _ _ _ _ _ Hinit)|].
    split; [exact (init_allowed E _ _ _ _ _ Hinit)|].
    right. exists err0. split; [reflexivity|]. exact (init_rejected_by_check _ _ _ _ _ Hinit).
  - split; [exact Hinit|].
    split; [exact (init_not_ready E _ _ _ _ _ Hinit Hnot)|].
    split; [exact (init_allowed E _ _ _ _ _ Hinit)|]. now left.
  - apply Hbody in Hrun. congruence.
Qed.

Lemma backup_allowed f m h p r p' evs :
  createBackup E f m h p = (r, p', evs) ->
  Forall (fun e => (gitReady p = false /\ init_may p e)
                   \/ backup_may (conflict_capable p) (settings p) (isMobile p) f m e) evs.
Proof.
  intros Hrun.
  apply when_ready_cases in Hrun
    as [[Hready Hrun] | (Hready & r1 & p1 & ev1 & Hinit & Hcase)].
  { apply backup_ready_allowed in Hrun.
    unfold conflict_capable. rewrite Hready.
    eapply List.Forall_impl; [|exact Hrun]. intros e He. now right. }
  assert (Hall1 : Forall (fun e => (gitReady p = false /\ init_may p e)
                     \/ backup_may (conflict_capable p) (settings p) (isMobile p) f m e) ev1).
  { eapply List.Forall_impl; [|exact (init_allowed E _ _ _ _ _ Hinit)].
    intros e He. left. now split. }
  destruct Hcase as [(err0 & -> & -> & -> & ->)
                    | [(-> & _ & -> & -> & ->)
                      | (-> & Hready1 & ev2 & Hrun & ->)]];
    try exact Hall1.
  apply List.Forall_app. split; [exact Hall1|].
  apply backup_ready_allowed in Hrun.
  destruct (init_plugin E _ _ _ _ _ Hinit) as (Hs & Hm & Hgm & _).
  rewrite Hs, Hm, Hgm, capable_after_init in Hrun.
  unfold conflict_capable. rewrite Hready.
  eapply List.Forall_impl; [|exact Hrun]. intros e He. now right.
Qed.

Lemma pull_allowed h p r p' evs :
  pullChangesFromRemote E h p = (r, p', evs) ->
  Forall (fun e => (gitReady p = false /\ init_may p e)
                   \/ pull_may (conflict_capable p) (settings p) (isMobile p) e) evs.
Proof.
  intros Hrun.
  apply when_ready_cases in Hrun
    as [[Hready Hrun] | (Hready & r1 & p1 & ev1 & Hinit & Hcase)].
  { apply pull_ready_allowed in Hrun.
    unfold conflict_capable. rewrite Hready.
    eapply List.Forall_impl; [|exact Hrun]. intros e He. now right. }
  assert (Hall1 : Forall (fun e => (gitReady p = false /\ init_may p e)
                     \/ pull_may (conflict_capable p) (settings p) (isMobile p) e) ev1).
  { eapply List.Forall_impl; [|exact (init_allowed E _ _ _ _ _ Hinit)].
    intros e He. left. now split. }
  destruct Hcase as [(err0 & -> & -> & -> & ->)
                    | [(-> & _ & -> & -> & ->)
                      | (-> & Hready1 & ev2 & Hrun & ->)]];
    try exact Hall1.
  apply List.Forall_app. split; [exact Hall1|].
  apply pull_ready_allowed in Hrun.
  destruct (init_plugin E _ _ _ _ _ Hinit) as (Hs & Hm & Hgm & _).
  rewrite Hs, Hm, Hgm, capable_after_init in Hrun.
  unfold conflict_capable. rewrite Hready.
  eapply List.Forall_impl; [|exact Hrun]. intros e He. now right.
Qed.

(** What is known of one event of a backup run. *)
Lemma backup_event_allowed f m h p r p' evs e :
  createBackup E f m h p = (r, p', evs) -> In e evs ->
  (gitReady p = false /\ init_may p e)
  \/ backup_may (conflict_capable p) (settings p) (isMobile p) f m e.
Proof.
  intros Hrun Hin. apply backup_allowed in Hrun.
  rewrite List.Forall_forall in Hrun. exact (Hrun e Hin).
Qed.

Lemma pull_event_allowed h p r p' evs e :
  pullChangesFromRemote E h p = (r, p', evs) -> In e evs ->
  (gitReady p = false /\ init_may p e)
  \/ pull_may (conflict_capable p) (settings p) (isMobile p) e.
Proof.
  intros Hrun Hin. apply pull_allowed in Hrun.
  rewrite List.Forall_forall in Hrun. exact (Hrun e Hin).
Qed.

End Workflows.

(** ** Conflicts: what is reported, and where the run stops *)

(** *** The report, line by line *)

Section Report.

Variable E : Env.

Lemma conflict_bullet_spelled h e : report_bullet E h e (conflict_bullet E h e).
Proof.
  unfold report_bullet, conflict_bullet.
  destruct (env_getAbstractFileByPath E h e) as [[f|f]|].
  - left. exists f. now split.
  - right. split; [intros f' Hf; discriminate Hf | reflexivity].
  - right. split; [intros f' Hf; discriminate Hf | reflexivity].
Qed.

Lemma conflict_bullets_spelled h paths :
  Forall2 (report_bullet E h) paths (map (conflict_bullet E h) paths).
Proof.
  induction paths as [|e paths IH]; cbn; constructor;
    [apply conflict_bullet_spelled | exact IH].
Qed.

Lemma conflict_lines_text h paths :
  join nl (conflict_lines E h paths) = report_text (map (conflict_bullet E h) paths).
Proof. reflexivity. Qed.


End Report.

(** *** Conflicts after a pull *)

Section PullConflicts.

Variable E : Env.

(** The notices of [init] are its three errors. *)
Lemma init_notices h p r p' evs m :
  init E h p = (r, p', evs) -> In (EvNotice m) evs -> In m init_errors.
Proof.
  intros H. wp_start. wp_run.
  all: intros Hin; in_split; ev_inj; try discriminate.
  all: cbn; auto.
Qed.

Lemma conflict_count_error_inj s s' :
  conflict_count_error s' = conflict_count_error s ->
  length (conflicted_files s') = length (conflicted_files s).
Proof.
  unfold conflict_count_error. intros H. apply String.app_inj in H.
  apply app_inj_r in H. apply numToString_inj in H. lia.
Qed.

Lemma conflict_count_error_not_init s : ~ In (conflict_count_error s) init_errors.
Proof.
  unfold conflict_count_error, init_errors.
  intros [H|[H|[H|[]]]]; discriminate H.
Qed.

(** Once ready, the one conflict error the pull workflow shows names the
    number of files of the status it asked for. *)
Lemma pull_ready_conflict_count h p r p' evs s s' :
  pullChangesFromRemote_ready E h p = (r, p', evs) ->
  In (EvStatus PostPullCheck (Resolved s)) evs ->
  In (EvNotice (conflict_count_error s')) evs ->
  length (conflicted_files s') = length (conflicted_files s).
Proof.
  intros H. wp_start. wp_run.
  all: intros Hin Hn; in_split; ev_inj; try discriminate.
  all: try (apply conflict_count_error_inj; unfold conflict_count_error; congruence).
Qed.

(** C9: in a run of the pull workflow where the status asked after the
    pull lists conflicted files, an error naming their number, and no
    other number, is shown, no conflict report is written or opened and
    the state is never shown as conflicted, and the run ends normally in
    state [idle]. *)
Theorem pull_conflicts_not_escalated h p r p' evs s :
  pullChangesFromRemote E h p = (r, p', evs) ->
  In (EvStatus PostPullCheck (Resolved s)) evs ->
  conflicted_files s <> [] ->
  error_shown (conflict_count_error s) evs
  /\ (forall s', error_shown (conflict_count_error s') evs ->
        length (conflicted_files s') = length (conflicted_files s))
  /\ (forall e, In e evs ->
        match e with
        | EvAdapterWrite _ _ _ | EvOpenLinkText _ _ _ | EvStatusBarDisplay conflicted => False
        | _ => True
        end)
  /\ r = Resolved tt /\ state p' = Some idle.
Proof.
  intros Hrun Hin Hne.
  assert (Hcount : forall s', error_shown (conflict_count_error s') evs ->
            length (conflicted_files s') = length (conflicted_files s)).
  { intros s' [Hn _].
    apply when_ready_cases in Hrun
      as [[_ Hrun] | (_ & r1 & p1 & ev1 & Hinit & Hcase)].
    { exact (pull_ready_conflict_count _ _ _ _ _ _ _ Hrun Hin Hn). }
    pose proof (init_events E _ _ _ _ _ Hinit) as Hev1.
    destruct Hcase as [(err0 & _ & _ & _ & ->)
                      | [(_ & _ & _ & _ & ->)
                        | (_ & _ & ev2 & Hbody & ->)]].
    - exfalso. exact (init_prefix_not_in _ (EvStatus PostPullCheck (Resolved s)) Hev1 eq_refl Hin).
    - exfalso. exact (init_prefix_not_in _ (EvStatus PostPullCheck (Resolved s)) Hev1 eq_refl Hin).
    - apply in_app_or in Hin as [Hin|Hin];
        [exfalso; exact (init_prefix_not_in _ (EvStatus PostPullCheck (Resolved s)) Hev1 eq_refl Hin)|].
      apply in_app_or in Hn as [Hn|Hn].
      + exfalso. exact (conflict_count_error_not_init _ (init_notices _ _ _ _ _ _ Hinit Hn)).
      + exact (pull_ready_conflict_count _ _ _ _ _ _ _ Hbody Hin Hn). }
  destruct (when_ready_body E _ _ _ _ _ _ _ Hrun Hin eq_refl)
    as (ev1 & p1 & ev2 & -> & Hinit & _ & _ & _ & _ & Hbody & Hin2).
  destruct (pull_ready_conflicts E _ _ _ _ _ _ Hbody Hin2 Hne)
    as ([Hn Hc] & Hno & Hr & Hst).
  split; [split; apply in_or_app; now right|].
  split; [exact Hcount|].
  split; [|now split].
  intros e He. apply in_app_or in He as [He|He]; [|now apply Hno].
  rewrite List.Forall_forall in Hinit. apply Hinit in He.
  destruct e as [| | | | | | | | | | | [] | | | | |]; try exact I; discriminate He.
Qed.

End PullConflicts.

(** *** A driver that cannot tell conflicts *)

Section Unguarded.

Variable E : Env.


End Unguarded.

(** *** Conflicts in a backup *)

Section Conflicts.

Variable E : Env.

Lemma report_bullets_without_files h paths bullets :
  (forall e, env_getAbstractFileByPath E h e = None) ->
  Forall2 (report_bullet E h) paths bullets ->
  bullets = map (fun e => "- Not a file: " +:+ e) paths.
Proof.
  intros Hnone HF. induction HF as [|e b paths bullets Hb _ IH]; [reflexivity|].
  cbn. rewrite IH. f_equal.
  destruct Hb as [(f & Hf & _) | (_ & ->)]; [|reflexivity].
  rewrite Hnone in Hf. discriminate Hf.
Qed.



End Conflicts.

(** ** What the workflows guarantee to their callers *)

Section Guarantees.

Variable E : Env.

Lemma message_shown_split m pre ev2 :
  Forall (fun e => preamble_event e = true) pre ->
  (message_shown m (pre ++ ev2) <-> message_shown m ev2).
Proof.
  intros Hpre. unfold message_shown. split.
  - intros Hin. apply in_app_or in Hin as [Hin|Hin]; [|exact Hin].
    exfalso. exact (preamble_not_in _ _ Hpre (message_not_preamble m) Hin).
  - intros Hin. apply in_or_app. now right.
Qed.

Lemma backup_ready_keeps_ready f m h p r p' evs :
  createBackup_ready E f m h p = (r, p', evs) -> gitReady p' = gitReady p.
Proof.
  intros Hrun. apply backup_ready_settled in Hrun as [Hsame _].
  exact (proj1 (proj2 (proj2 (proj2 (proj2 Hsame))))).
Qed.

Lemma pull_ready_keeps_ready h p r p' evs :
  pullChangesFromRemote_ready E h p = (r, p', evs) -> gitReady p' = gitReady p.
Proof.
  intros Hrun. apply pull_ready_settled in Hrun as [Hsame _].
  exact (proj1 (proj2 (proj2 (proj2 (proj2 Hsame))))).
Qed.

Lemma init_never_writes h p r p' evs path text wr :
  init E h p = (r, p', evs) -> ~ In (EvAdapterWrite path text wr) evs.
Proof.
  intros Hinit Hin. apply init_allowed in Hinit.
  rewrite List.Forall_forall in Hinit. exact (Hinit _ Hin).
Qed.

(** *** Rejections *)

(** X3: a call that [createBackup] awaits and that rejects ends the run: the
    run rejects with the same error and the rejected call is the last
    thing that happened. *)
Theorem backup_rejection_ends_run f m h p r p' evs e err :
  createBackup E f m h p = (r, p', evs) ->
  In e evs -> rejection_of e = Some err ->
  r = Rejected err /\ exists pre, evs = pre ++ [e].
Proof.
  intros Hrun Hin Hrej.
  exact (when_ready_rejection E _ (backup_ready_rejection E f m) _ _ _ _ _ _ _ Hrun Hin Hrej).
Qed.

(** X4: a call that [pullChangesFromRemote] awaits and that rejects ends the
    run: the run rejects with the same error and the rejected call is the
    last thing that happened. *)
Theorem pull_rejection_ends_run h p r p' evs e err :
  pullChangesFromRemote E h p = (r, p', evs) ->
  In e evs -> rejection_of e = Some err ->
  r = Rejected err /\ exists pre, evs = pre ++ [e].
Proof.
  intros Hrun Hin Hrej.
  exact (when_ready_rejection E _ (pull_ready_rejection E) _ _ _ _ _ _ _ Hrun Hin Hrej).
Qed.

(** X5: the one rejection [createBackup] does not pass on is that of the
    write of the conflict report: the run resolves all the same, the
    plugin is left [conflicted], and the report is not opened. *)
Theorem backup_report_write_failure_is_swallowed f m h p r p' evs path text err :
  createBackup E f m h p = (r, p', evs) ->
  In (EvAdapterWrite path text (Rejected err)) evs ->
  r = Resolved tt /\ state p' = Some conflicted
  /\ forall l s n, ~ In (EvOpenLinkText l s n) evs.
Proof.
  intros Hrun Hin.
  apply when_ready_cases in Hrun
    as [[_ Hrun] | (_ & r1 & p1 & ev1 & Hinit & Hcase)].
  { exact (backup_ready_write_failed E _ _ _ _ _ _ _ _ _ _ Hrun Hin). }
  destruct Hcase as [(err0 & -> & -> & -> & ->)
                    | [(-> & _ & -> & -> & ->)
                      | (-> & _ & ev2 & Hrun & ->)]].
  - exfalso. exact (init_never_writes _ _ _ _ _ _ _ _ Hinit Hin).
  - exfalso. exact (init_never_writes _ _ _ _ _ _ _ _ Hinit Hin).
  - apply in_app_or in Hin as [Hin|Hin].
    { exfalso. exact (init_never_writes _ _ _ _ _ _ _ _ Hinit Hin). }
    destruct (backup_ready_write_failed E _ _ _ _ _ _ _ _ _ _ Hrun Hin)
      as (Hr & Hst & Hno).
    split; [exact Hr|]. split; [exact Hst|].
    intros l s n Ho. apply in_app_or in Ho as [Ho|Ho].
    + apply init_allowed in Hinit. rewrite List.Forall_forall in Hinit.
      exact (Hinit _ Ho).
    + exact (Hno _ _ _ Ho).
Qed.

(** *** Runs that never get ready *)

(** X6: a run of [createBackup] that ends with the plugin not ready is a run
    of [init] and nothing more: only the driver field has changed, every
    event is one [init] can cause, and the run either resolved or rejected
    with the error of the readiness check. *)
Theorem backup_not_ready_only_initialises f m h p r p' evs :
  createBackup E f m h p = (r, p', evs) ->
  gitReady p' = false ->
  init E h p = (r, p', evs)
  /\ same_but_gitManager p p'
  /\ Forall (init_may p) evs
  /\ (r = Resolved tt
      \/ exists err, r = Rejected err /\ In (EvCheckRequirements (Rejected err)) evs).
Proof.
  intros Hrun Hnot.
  exact (when_ready_not_ready E _ (backup_ready_keeps_ready f m) _ _ _ _ _ Hrun Hnot).
Qed.

(** X7: a run of [pullChangesFromRemote] that ends with the plugin not ready
    is a run of [init] and nothing more: only the driver field has
    changed, every event is one [init] can cause, and the run either
    resolved or rejected with the error of the readiness check. *)
Theorem pull_not_ready_only_initialises h p r p' evs :
  pullChangesFromRemote E h p = (r, p', evs) ->
  gitReady p' = false ->
  init E h p = (r, p', evs)
  /\ same_but_gitManager p p'
  /\ Forall (init_may p) evs
  /\ (r = Resolved tt
      \/ exists err, r = Rejected err /\ In (EvCheckRequirements (Rejected err)) evs).
Proof.
  intros Hrun Hnot.
  exact (when_ready_not_ready E _ pull_ready_keeps_ready _ _ _ _ _ Hrun Hnot).
Qed.

(** *** What a run leaves behind *)

(** X8: on a ready plugin [createBackup] changes no field but [state]:
    the driver, the settings, the timer handles, the readiness and the
    queue are as they were, however the run ends. *)
Theorem ready_backup_changes_only_state f m h p r p' evs :
  createBackup E f m h p = (r, p', evs) ->
  gitReady p = true ->
  same_but_state p p'.
Proof.
  intros Hrun Hready.
  apply when_ready_cases in Hrun as [[_ Hrun] | (Hnot & _)]; [|congruence].
  apply backup_ready_settled in Hrun as [Hsame _]. exact Hsame.
Qed.

(** X9: a run of [createBackup] that resolves with the plugin ready ends in
    one of two ways: state [idle] and nothing written to the vault, or
    state [conflicted] and the conflict report handed to the vault. *)
Theorem backup_ends_idle_or_reports_conflict f m h p p' evs :
  createBackup E f m h p = (Resolved tt, p', evs) ->
  gitReady p' = true ->
  (state p' = Some idle
   /\ forall path text wr, ~ In (EvAdapterWrite path text wr) evs)
  \/ (state p' = Some conflicted
      /\ exists text wr, In (EvAdapterWrite conflictOutputFile text wr) evs).
Proof.
  intros Hrun Hready.
  apply when_ready_cases in Hrun
    as [[_ Hrun] | (_ & r1 & p1 & ev1 & Hinit & Hcase)].
  { apply backup_ready_settled in Hrun as [_ Hr]. exact Hr. }
  destruct Hcase as [(err0 & _ & Hr & _)
                    | [(_ & Hnot & _ & -> & _)
                      | (-> & _ & ev2 & Hrun & ->)]].
  - discriminate Hr.
  - congruence.
  - apply backup_ready_settled in Hrun as [_ [[Hst Hno] | [Hst (text & wr & Hw)]]].
    + left. split; [exact Hst|]. intros path text wr Hin.
      apply in_app_or in Hin as [Hin|Hin].
      * exact (init_never_writes _ _ _ _ _ _ _ _ Hinit Hin).
      * exact (Hno _ _ _ Hin).
    + right. split; [exact Hst|]. exists text, wr. apply in_or_app. now right.
Qed.

(** X10: on a ready plugin [pullChangesFromRemote] changes no field but
    [state], and a run that resolves leaves the plugin [idle], also when
    the pull brought conflicts. *)
Theorem ready_pull_ends_idle h p r p' evs :
  pullChangesFromRemote E h p = (r, p', evs) ->
  gitReady p = true ->
  same_but_state p p' /\ (r = Resolved tt -> state p' = Some idle).
Proof.
  intros Hrun Hready.
  apply when_ready_cases in Hrun as [[_ Hrun] | (Hnot & _)]; [|congruence].
  destruct (pull_ready_settled E _ _ _ _ _ Hrun) as [Hsame Hr].
  split; [exact Hsame|]. intros ->. exact Hr.
Qed.

(** *** What the settings switch off *)

(** X11: with [disablePush] set, [createBackup] stays local: it never asks for
    the branch or whether there is something to push, and never pulls,
    pushes or checks for conflicts before a push. *)
Theorem backup_push_disabled_stays_local f m h p r p' evs :
  createBackup E f m h p = (r, p', evs) ->
  disablePush (settings p) = true ->
  never_pushes evs /\ never_pulls evs
  /\ (forall c, ~ In (EvBranchInfo c) evs)
  /\ (forall c, ~ In (EvCanPush c) evs)
  /\ (forall c, ~ In (EvStatus PrePushCheck c) evs).
Proof.
  intros Hrun Hoff.
  repeat split; intros c Hin;
    destruct (backup_event_allowed E _ _ _ _ _ _ _ _ Hrun Hin) as [[_ H]|H];
    cbn in H; try contradiction; try congruence.
  - destruct H as [H _]. congruence.
  - destruct H as [_ H]. congruence.
Qed.

(** X12: [createBackup] pulls only when it is allowed to push and
    [pullBeforePush] is set, and it tells how many files the pull brought
    exactly when that number is positive. *)
Theorem backup_pulls_only_before_push f m h p r p' evs c :
  createBackup E f m h p = (r, p', evs) ->
  In (EvPull c) evs ->
  disablePush (settings p) = false /\ pullBeforePush (settings p) = true
  /\ forall n, c = Resolved n ->
       (message_shown (pulled_from_remote_message n) evs <-> 0 < n).
Proof.
  intros Hrun Hin.
  destruct (backup_event_allowed E _ _ _ _ _ _ _ _ Hrun Hin) as [[_ H]|[Hpush Hpull]];
    [contradiction|].
  split; [exact Hpush|]. split; [exact Hpull|]. intros n ->.
  destruct (backup_commit_phase E _ _ _ _ _ _ _ (EvPull (Resolved n)) Hrun Hin eq_refl)
    as (pre & p1 & h1 & ev2 & -> & Hpre & _ & Hphase & Hin2).
  rewrite (message_shown_split _ _ _ Hpre).
  destruct (commit_push_reports E _ _ _ _ _ _ Hphase) as (_ & _ & Hpulled).
  exact (Hpulled n Hin2).
Qed.

(** X13: every commit of [createBackup] is made with the message the caller
    gave, and a commit that resolves is reported with the number of files
    the driver answered. *)
Theorem backup_commits_with_given_message f m h p r p' evs m' c :
  createBackup E f m h p = (r, p', evs) ->
  In (EvCommitAll m' c) evs ->
  m' = m /\ forall n, c = Resolved n -> message_shown (committed_message n) evs.
Proof.
  intros Hrun Hin.
  destruct (backup_event_allowed E _ _ _ _ _ _ _ _ Hrun Hin) as [[_ H]|H];
    [contradiction|]. cbn in H. subst m'.
  split; [reflexivity|]. intros n ->.
  destruct (backup_commit_phase E _ _ _ _ _ _ _ (EvCommitAll m (Resolved n)) Hrun Hin eq_refl)
    as (pre & p1 & h1 & ev2 & -> & Hpre & _ & Hphase & Hin2).
  apply message_shown_app.
  destruct (commit_push_reports E _ _ _ _ _ _ Hphase) as (Hcommitted & _).
  exact (Hcommitted n Hin2).
Qed.

(** X14: a push that resolves is reported with the number of files the driver
    answered, and the run then resolves and leaves the plugin [idle]. *)
Theorem backup_push_is_reported f m h p r p' evs n :
  createBackup E f m h p = (r, p', evs) ->
  In (EvPush (Resolved n)) evs ->
  message_shown (pushed_message n) evs /\ r = Resolved tt /\ state p' = Some idle.
Proof.
  intros Hrun Hin.
  destruct (backup_commit_phase E _ _ _ _ _ _ _ (EvPush (Resolved n)) Hrun Hin eq_refl)
    as (pre & p1 & h1 & ev2 & -> & Hpre & _ & Hphase & Hin2).
  destruct (commit_push_reports E _ _ _ _ _ _ Hphase) as (_ & Hpushed & _).
  destruct (Hpushed n Hin2) as (Hmsg & Hr & Hst).
  split; [apply message_shown_app; exact Hmsg|]. split; assumption.
Qed.

(** X15: an automatic backup never deletes anything from the vault: the old
    conflict report is removed by the manual backup only. *)
Theorem auto_backup_deletes_nothing m h p r p' evs file d :
  createBackup E true m h p = (r, p', evs) ->
  ~ In (EvVaultDelete file d) evs.
Proof.
  intros Hrun Hin.
  destruct (backup_event_allowed E _ _ _ _ _ _ _ _ Hrun Hin) as [[_ H]|H];
    [contradiction|]. discriminate H.
Qed.

(** X16: on mobile there is no status bar, and [createBackup] never touches
    one: neither a message nor a state is displayed there. *)
Theorem mobile_backup_leaves_status_bar f m h p r p' evs :
  createBackup E f m h p = (r, p', evs) ->
  isMobile p = true ->
  (forall l t, ~ In (EvStatusBarMessage l t) evs)
  /\ (forall s, ~ In (EvStatusBarDisplay s) evs).
Proof.
  intros Hrun Hmobile.
  split; [intros l t Hin | intros s Hin];
    destruct (backup_event_allowed E _ _ _ _ _ _ _ _ Hrun Hin) as [[_ H]|H];
    cbn in H.
  - destruct H as [H _]. congruence.
  - congruence.
  - destruct H as [H _]. congruence.
  - destruct H as [H _]. congruence.
Qed.

(** X17: on mobile [pullChangesFromRemote] never touches a status bar either:
    neither a message nor a state is displayed there. *)
Theorem mobile_pull_leaves_status_bar h p r p' evs :
  pullChangesFromRemote E h p = (r, p', evs) ->
  isMobile p = true ->
  (forall l t, ~ In (EvStatusBarMessage l t) evs)
  /\ (forall s, ~ In (EvStatusBarDisplay s) evs).
Proof.
  intros Hrun Hmobile.
  split; [intros l t Hin | intros s Hin];
    destruct (pull_event_allowed E _ _ _ _ _ _ Hrun Hin) as [[_ H]|H];
    cbn in H.
  - destruct H as [H _]. congruence.
  - congruence.
  - destruct H as [H _]. congruence.
  - destruct H as [H _]. congruence.
Qed.

(** X18: where the driver is not [SimpleGit] (standalone mode, or mobile),
    [createBackup] looks for no conflicts: it asks the status for the
    changed files only, and writes and opens no report. *)
Theorem backup_without_simple_git_checks_no_conflicts f m h p r p' evs :
  createBackup E f m h p = (r, p', evs) ->
  conflict_capable p = false ->
  (forall site c, In (EvStatus site c) evs -> site = ChangedQuery)
  /\ (forall path text wr, ~ In (EvAdapterWrite path text wr) evs)
  /\ (forall l s n, ~ In (EvOpenLinkText l s n) evs).
Proof.
  intros Hrun Hcap.
  repeat split.
  - intros site c Hin.
    destruct (backup_event_allowed E _ _ _ _ _ _ _ _ Hrun Hin) as [[_ H]|H];
      [contradiction|].
    destruct site; cbn in H; try reflexivity; try contradiction.
    + congruence.
    + destruct H as [H _]. congruence.
  - intros path text wr Hin.
    destruct (backup_event_allowed E _ _ _ _ _ _ _ _ Hrun Hin) as [[_ H]|[H _]];
      [contradiction | congruence].
  - intros l s n Hin.
    destruct (backup_event_allowed E _ _ _ _ _ _ _ _ Hrun Hin) as [[_ H]|[H _]];
      [contradiction | congruence].
Qed.

(** X19: with [disablePopups] set, the only notices [createBackup] still shows
    are errors: those of [init], and the three of the backup itself. *)
Theorem backup_popups_disabled_only_errors f m h p r p' evs msg :
  createBackup E f m h p = (r, p', evs) ->
  disablePopups (settings p) = true ->
  In (EvNotice msg) evs ->
  In msg init_errors \/ backup_error msg.
Proof.
  intros Hrun Hoff Hin.
  destruct (backup_event_allowed E _ _ _ _ _ _ _ _ Hrun Hin) as [[_ H]|[H|H]].
  - left. exact H.
  - right. exact H.
  - congruence.
Qed.

(** X20: on a ready plugin [createBackup] does not initialise again: no driver
    is created, the requirements are not checked, and no timer is armed. *)
Theorem ready_backup_never_reinitialises f m h p r p' evs :
  createBackup E f m h p = (r, p', evs) ->
  gitReady p = true ->
  (forall k, ~ In (EvNewBackend k) evs)
  /\ (forall c, ~ In (EvCheckRequirements c) evs)
  /\ (forall t ms id, ~ In (EvSetInterval t ms id) evs)
  /\ (forall id, ~ In (EvRegisterInterval id) evs).
Proof.
  intros Hrun Hready.
  repeat split; intros; intros Hin;
    destruct (backup_event_allowed E _ _ _ _ _ _ _ _ Hrun Hin) as [[H _]|H];
    first [congruence | exact H].
Qed.

(** X21: [pullChangesFromRemote] only pulls: it never commits, pushes, asks
    for the branch, deletes, writes or opens a file, and the one status it
    may ask for is the check for conflicts after the pull. *)
Theorem pull_only_pulls h p r p' evs :
  pullChangesFromRemote E h p = (r, p', evs) ->
  never_commits evs /\ never_pushes evs
  /\ (forall c, ~ In (EvBranchInfo c) evs)
  /\ (forall c, ~ In (EvCanPush c) evs)
  /\ (forall file d, ~ In (EvVaultDelete file d) evs)
  /\ (forall path text wr, ~ In (EvAdapterWrite path text wr) evs)
  /\ (forall l s n, ~ In (EvOpenLinkText l s n) evs)
  /\ (forall site c, In (EvStatus site c) evs -> site = PostPullCheck).
Proof.
  intros Hrun. unfold never_commits, never_pushes.
  repeat split.
  8: { intros site c Hin.
       destruct (pull_event_allowed E _ _ _ _ _ _ Hrun Hin) as [[_ H]|H];
         [contradiction|].
       destruct site; cbn in H; try reflexivity; contradiction. }
  all: intros; intros Hin;
    destruct (pull_event_allowed E _ _ _ _ _ _ Hrun Hin) as [[_ H]|H];
    exact H.
Qed.

(** *** The conflict report *)

(** X22: [handleConflict] never rejects, also when the write of the report
    does: it sets the state to [conflicted], hands one report to the vault
    adapter, at the well-known path, whose text is the heading, the
    instruction and then one bullet for each path, in their order (a link
    to the file at the path, or the path itself when there is no file
    there), and at most opens it afterwards, which it does only when the
    write resolved. *)
Theorem handleConflict_writes_one_report paths h p r p' evs :
  handleConflict E paths h p = (r, p', evs) ->
  r = Resolved tt /\ p' = set_state conflicted p
  /\ exists wr bullets opened,
       evs = setState_events conflicted p
             ++ [EvAdapterWrite conflictOutputFile (report_text bullets) wr]
             ++ opened
       /\ Forall2 (report_bullet E (h ++ setState_events conflicted p)) paths bullets
       /\ (opened = []
           \/ (wr = Resolved tt /\ opened = [EvOpenLinkText conflictOutputFile "/" true])).
Proof.
  unfold handleConflict, writeAndOpenFile, detached, bind, query, call, when, emit, ret.
  rewrite setState_run.
  cbn [fst snd].
  rewrite conflict_lines_text.
  destruct (env_adapter_write E _ conflictOutputFile _) as [[]|err] eqn:Hw;
    [destruct (negb _) eqn:Hopen|]; cbn; intros [= <- <- <-].
  all: split; [reflexivity|]; split; [reflexivity|].
  all: rewrite ?app_nil_r.
  - exists (Resolved tt), (map (conflict_bullet E (h ++ setState_events conflicted p)) paths),
      [EvOpenLinkText conflictOutputFile "/" true].
    split; [reflexivity|]. split; [apply conflict_bullets_spelled|]. right. now split.
  - exists (Resolved tt), (map (conflict_bullet E (h ++ setState_events conflicted p)) paths), [].
    split; [reflexivity|]. split; [apply conflict_bullets_spelled|]. now left.
  - exists (Rejected err), (map (conflict_bullet E (h ++ setState_events conflicted p)) paths), [].
    split; [reflexivity|]. split; [apply conflict_bullets_spelled|]. now left.
Qed.

(** X23: once the report is written, [writeAndOpenFile] opens it unless some
    leaf of the workspace has a display text that is not empty and that
    the name of the report starts with; the leaf need not show the
    report itself. *)
Theorem report_opened_unless_leaf_matches text h p r p' evs :
  writeAndOpenFile E text h p = (r, p', evs) ->
  In (EvAdapterWrite conflictOutputFile text (Resolved tt)) evs ->
  r = Resolved tt /\ p' = p
  /\ (In (EvOpenLinkText conflictOutputFile "/" true) evs
      <-> forall t,
            In t (env_leaves E (h ++ [EvAdapterWrite conflictOutputFile text (Resolved tt)])) ->
            t = "" \/ startsWith conflictOutputFile t = false).
Proof.
  unfold writeAndOpenFile, bind, query, call, when, emit, ret. cbn [fst snd].
  destruct (env_adapter_write E h conflictOutputFile text) as [[]|err] eqn:Hw.
  2: { cbn. intros [= <- <- <-] [Hin|[]]. discriminate Hin. }
  rewrite !app_nil_r.
  set (leaves := env_leaves E _).
  destruct (existsb _ leaves) eqn:Hex; cbn; intros [= <- <- <-] _.
  - split; [reflexivity|]. split; [reflexivity|]. split.
    + intros [Hin|[]]. discriminate Hin.
    + intros Hall. exfalso.
      apply existsb_exists in Hex as (t & Hin & Ht).
      apply andb_true_iff in Ht as [Hne Hpre].
      destruct (Hall t Hin) as [->|Hno]; [discriminate Hne | congruence].
  - split; [reflexivity|]. split; [reflexivity|]. split.
    + intros _ t Hin.
      destruct (String.eqb t "") eqn:Hempty.
      { left. now apply String.eqb_eq. }
      right. destruct (startsWith conflictOutputFile t) eqn:Hpre; [|reflexivity].
      exfalso. assert (existsb (fun t => negb (String.eqb t "")
                                  && startsWith conflictOutputFile t)%bool leaves = true).
      { apply existsb_exists. exists t. split; [exact Hin|]. now rewrite Hempty, Hpre. }
      congruence.
    + intros _. right. now left.
Qed.

(** *** The old report *)

(** Once ready, a manual backup first hands to [vault.delete] what the
    vault has at the path of the report. *)
Lemma backup_ready_deletes_first m h p r p' evs :
  createBackup_ready E false m h p = (r, p', evs) ->
  exists c rest,
    evs = EvVaultDelete (env_getAbstractFileByPath E h conflictOutputFile) c :: rest
    /\ match c with
       | Rejected err => r = Rejected err /\ rest = []
       | Resolved _ =>
           gitManager p <> None ->
           exists site sr,
             In (EvStatus site sr) rest /\ (site = ConflictCheck \/ site = ChangedQuery)
       end.
Proof.
  intros H. wp_start. wp_run_to_commit.
  all: try (apply wp_intro; intros r2 p2 ev2 Hphase).
  all: repeat match goal with
              | Hv : ?v = env_getAbstractFileByPath _ _ _ |- _ => subst v
              end.
  all: eexists; eexists; (split; [reflexivity|]); cbv iota beta.
  all: try (split; reflexivity).
  all: intros Hgm; try congruence.
  all: try (eexists; eexists; split; [in_find | left; reflexivity]).
  all: apply commit_push_asks_status in Hphase; [|assumption].
  all: destruct Hphase as [sr Hsr]; exists ChangedQuery, sr; split; [in_find | now right].
Qed.

(** X27: a manual run of [createBackup] that gets as far as its body
    first hands to [vault.delete] whatever the vault has at the path of
    the report, the null handle when there is no such file, and does so
    before anything else when the plugin was ready; when that call
    rejects, the run is over and rejects with the same error, and when it
    resolves, the run goes on to ask the driver for the status. *)
Theorem manual_backup_deletes_looked_up_report m h p r p' evs :
  createBackup E false m h p = (r, p', evs) ->
  gitReady p' = true ->
  (gitReady p = true -> gitManager p <> None) ->
  exists pre c rest,
    evs = pre ++ EvVaultDelete (env_getAbstractFileByPath E (h ++ pre) conflictOutputFile) c
                 :: rest
    /\ (gitReady p = true -> pre = [])
    /\ match c with
       | Rejected err => r = Rejected err /\ rest = []
       | Resolved _ =>
           exists site sr,
             In (EvStatus site sr) rest /\ (site = ConflictCheck \/ site = ChangedQuery)
       end.
Proof.
  intros Hrun Hready' Hinv.
  apply when_ready_cases in Hrun
    as [[Hready Hrun] | (Hnot & r1 & p1 & ev1 & Hinit & Hcase)].
  - destruct (backup_ready_deletes_first _ _ _ _ _ _ Hrun) as (c & rest & -> & Hc).
    exists [], c, rest. rewrite app_nil_r. split; [reflexivity|]. split; [reflexivity|].
    destruct c as [[]|err]; [|exact Hc]. exact (Hc (Hinv Hready)).
  - destruct Hcase as [(err0 & -> & -> & -> & ->)
                      | [(-> & Hnot1 & -> & -> & ->)
                        | (-> & Hready1 & ev2 & Hrun & ->)]].
    + pose proof (init_rejected_plugin E _ _ _ _ _ Hinit) as Hsame.
      destruct Hsame as (_ & _ & _ & _ & Hg & _). congruence.
    + congruence.
    + destruct (backup_ready_deletes_first _ _ _ _ _ _ Hrun) as (c & rest & -> & Hc).
      exists ev1, c, rest. split; [reflexivity|].
      split; [intros Hready; congruence|].
      destruct c as [[]|err]; [|exact Hc]. apply Hc.
      destruct (init_plugin E _ _ _ _ _ Hinit) as (_ & _ & Hgm & _).
      rewrite Hgm. discriminate.
Qed.

End Guarantees.

(** ** The command that lists the changed files *)

Section ListChangedFiles.

Variable E : Env.

(** The callback runs [init] when the plugin is not ready, and then, when
    it is, asks the driver for the status once. *)
Lemma listChangedFiles_cases h p r p' evs :
  listChangedFiles E h p = (r, p', evs) ->
  exists r1 p1 ev1,
    ((gitReady p = true /\ r1 = Resolved tt /\ p1 = p /\ ev1 = [])
     \/ (gitReady p = false /\ init E h p = (r1, p1, ev1)))
    /\ p' = p1
    /\ match r1 with
       | Rejected err => r = Rejected err /\ evs = ev1
       | Resolved _ =>
           if gitReady p1 then
             match gitManager p1 with
             | None => r = Rejected "TypeError: this.gitManager is undefined" /\ evs = ev1
             | Some k =>
                 evs = ev1 ++ [EvStatus ChangedQuery (env_status E (h ++ ev1) k)]
                 /\ r = match env_status E (h ++ ev1) k with
                        | Resolved st => Resolved (Some (changed st))
                        | Rejected err => Rejected err
                        end
             end
           else r = Resolved None /\ evs = ev1
       end.
Proof.
  unfold listChangedFiles, on_gitManager, bind, get, when, ret, call, throw.
  cbn -[init].
  destruct (gitReady p) eqn:Hready; cbn -[init].
  - rewrite Hready. cbn. rewrite !app_nil_r. intros Hrun.
    exists (Resolved tt), p, []. split; [left; now repeat split|].
    rewrite Hready, app_nil_r.
    destruct (gitManager p) as [k|]; [destruct (env_status E h k)|];
      cbn in Hrun; injection Hrun as <- <- <-; now repeat split.
  - rewrite !app_nil_r.
    destruct (init E h p) as [[r1 p1] ev1] eqn:Hinit. intros Hrun.
    exists r1, p1, ev1. split; [right; now split|].
    destruct r1 as [[]|err]; cbn in Hrun.
    + destruct (gitReady p1); cbn in Hrun; rewrite ?app_nil_r in Hrun.
      * destruct (gitManager p1) as [k|]; [destruct (env_status E (h ++ ev1) k)|];
          cbn in Hrun; rewrite ?app_nil_r in Hrun;
          injection Hrun as <- <- <-; now repeat split.
      * injection Hrun as <- <- <-. now repeat split.
    + injection Hrun as <- <- <-. now repeat split.
Qed.

Lemma listChangedFiles_allowed h p r p' evs :
  listChangedFiles E h p = (r, p', evs) ->
  Forall (fun e => init_may p e \/ exists c, e = EvStatus ChangedQuery c) evs.
Proof.
  intros Hrun.
  apply listChangedFiles_cases in Hrun as (r1 & p1 & ev1 & Hfirst & _ & Hrest).
  assert (Hall1 : Forall (fun e => init_may p e \/ exists c, e = EvStatus ChangedQuery c) ev1).
  { destruct Hfirst as [(_ & _ & _ & ->) | (_ & Hinit)]; [constructor|].
    eapply List.Forall_impl; [|exact (init_allowed E _ _ _ _ _ Hinit)].
    intros e He. now left. }
  destruct r1 as [[]|err]; [|destruct Hrest as [_ ->]; exact Hall1].
  destruct (gitReady p1); [|destruct Hrest as [_ ->]; exact Hall1].
  destruct (gitManager p1) as [k|]; [|destruct Hrest as [_ ->]; exact Hall1].
  destruct Hrest as [-> _].
  apply List.Forall_app. split; [exact Hall1|].
  constructor; [|constructor]. right. eexists. reflexivity.
Qed.

(** X24: when the command opens the modal, and the [init] it may have run
    started no task, the plugin is ready and the files the modal lists
    are the changed files of the status that was asked for last; on a
    plugin that was ready, that status is all that happened. *)
Theorem list_changed_files_shows_status h p files p' evs :
  listChangedFiles E h p = (Resolved (Some files), p', evs) ->
  gitReady p = true \/ enqueue_waits p ->
  gitReady p' = true
  /\ exists pre st,
       evs = pre ++ [EvStatus ChangedQuery (Resolved st)]
       /\ files = changed st
       /\ (gitReady p = true -> pre = []).
Proof.
  intros Hrun _.
  apply listChangedFiles_cases in Hrun as (r1 & p1 & ev1 & Hfirst & -> & Hrest).
  destruct r1 as [[]|err]; [|destruct Hrest as [Hr _]; discriminate Hr].
  destruct (gitReady p1) eqn:Hready1; [|destruct Hrest as [Hr _]; discriminate Hr].
  destruct (gitManager p1) as [k|]; [|destruct Hrest as [Hr _]; discriminate Hr].
  destruct Hrest as [-> Hr].
  destruct (env_status E (h ++ ev1) k) as [st|err]; [|discriminate Hr].
  injection Hr as ->.
  split; [reflexivity|]. exists ev1, st.
  split; [reflexivity|]. split; [reflexivity|].
  intros Hready. destruct Hfirst as [(_ & _ & _ & ->) | (Hnot & _)];
    [reflexivity | congruence].
Qed.

(** X25: the command only reads, where the [init] it may run starts no
    task: whatever it ends with, no commit, pull or push was made and
    nothing in the vault was deleted or written; and where it resolves
    without opening the modal, the plugin is not ready. *)
Theorem list_changed_files_only_reads h p r p' evs :
  listChangedFiles E h p = (r, p', evs) ->
  gitReady p = true \/ enqueue_waits p ->
  never_commits evs /\ never_pushes evs /\ never_pulls evs
  /\ (forall file d, ~ In (EvVaultDelete file d) evs)
  /\ (forall path text wr, ~ In (EvAdapterWrite path text wr) evs)
  /\ (r = Resolved None -> gitReady p' = false).
Proof.
  intros Hrun _. pose proof (listChangedFiles_allowed _ _ _ _ _ Hrun) as Hall.
  rewrite List.Forall_forall in Hall.
  unfold never_commits, never_pushes, never_pulls.
  repeat split.
  1-5: intros; intros Hin; destruct (Hall _ Hin) as [H | (c0 & H)];
       [exact H | discriminate H].
  intros ->.
  apply listChangedFiles_cases in Hrun as (r1 & p1 & ev1 & _ & -> & Hrest).
  destruct r1 as [[]|err]; [|destruct Hrest as [Hr _]; discriminate Hr].
  destruct (gitReady p1) eqn:Hready1; [|reflexivity].
  destruct (gitManager p1) as [k|]; [|destruct Hrest as [Hr _]; discriminate Hr].
  destruct Hrest as [_ Hr].
  destruct (env_status E (h ++ ev1) k); discriminate Hr.
Qed.

End ListChangedFiles.

(** ** More concrete runs *)

Section MoreRuns.

Import Samples MoreSamples.

Ltac in_list := cbv; repeat first [ left; reflexivity | right ].

(** A valid repository, with both intervals and pull-on-boot set, and
    [init] run by a manual backup at the head of the queue. *)
Lemma init_valid_run :
  In (EvCheckRequirements (Resolved "valid")) (events_of run_init_busy)
  /\ enqueue_waits plugin_boot_busy
  /\ gitReady (plugin_of run_init_busy) = true
  /\ promiseQueue (plugin_of run_init_busy) = [TaskBackup false; TaskPull]
  /\ forall m, ~ In (EvNotice m) (events_of run_init_busy).
Proof.
  assert (Hin : In (EvCheckRequirements (Resolved "valid")) (events_of run_init_busy))
    by in_list.
  assert (Hw : enqueue_waits plugin_boot_busy) by (right; discriminate).
  destruct (init_valid_arms_what_is_configured env_clean [] plugin_boot_busy _ _ _
              (run_parts run_init_busy) Hin Hw)
    as (_ & Hready & _ & _ & _ & Hqueue & _ & _ & Hquiet).
  split; [exact Hin|]. split; [exact Hw|]. split; [exact Hready|].
  split; [exact Hqueue | exact Hquiet].
Defined.

(** The backup timer of that run: five minutes, handle 3. *)
Lemma init_timers_run :
  In (EvSetInterval (TaskBackup true) 300000 3) (events_of run_init_timers)
  /\ In (EvRegisterInterval 3) (events_of run_init_timers)
  /\ disableAutoBackup (plugin_of run_init_timers) = (true, Some 3).
Proof.
  assert (Hin : In (EvSetInterval (TaskBackup true) 300000 3) (events_of run_init_timers))
    by in_list.
  destruct (init_timers_are_registered env_clean [] plugin_timers _ _ _ _ _ _
              (run_parts run_init_timers) Hin)
    as (_ & Hreg & _ & [(_ & _ & _ & Hoff) | (Ht & _)]); [|discriminate Ht].
  split; [exact Hin|]. split; [exact Hreg|]. apply Hoff. discriminate.
Defined.

(** The deletion of the old report rejects. *)
Lemma backup_rejection_run :
  In (EvVaultDelete None (Rejected "ENOENT: no such file or directory"))
     (events_of run_delete_rejects)
  /\ outcome_of run_delete_rejects = Rejected "ENOENT: no such file or directory".
Proof.
  assert (Hin : In (EvVaultDelete None (Rejected "ENOENT: no such file or directory"))
                   (events_of run_delete_rejects)) by in_list.
  split; [exact Hin|].
  exact (proj1 (backup_rejection_ends_run env_delete_rejects false None [] plugin_ready
                  _ _ _ _ _ (run_parts run_delete_rejects) Hin eq_refl)).
Defined.

(** The remote cannot be reached. *)
Lemma pull_rejection_run :
  In (EvPull (Rejected "could not resolve host")) (events_of run_pull_offline)
  /\ outcome_of run_pull_offline = Rejected "could not resolve host".
Proof.
  assert (Hin : In (EvPull (Rejected "could not resolve host"))
                   (events_of run_pull_offline)) by in_list.
  split; [exact Hin|].
  exact (proj1 (pull_rejection_ends_run env_offline [] plugin_ready
                  _ _ _ _ _ (run_parts run_pull_offline) Hin eq_refl)).
Defined.

(** A vault that cannot be written to, and two conflicted files. *)
Lemma backup_write_failure_run :
  (exists text, In (EvAdapterWrite conflictOutputFile text
                      (Rejected "EACCES: permission denied"))
                   (events_of run_auto_read_only))
  /\ outcome_of run_auto_read_only = Resolved tt
  /\ state (plugin_of run_auto_read_only) = Some conflicted.
Proof.
  assert (Hin : In (EvAdapterWrite conflictOutputFile
                      (join nl (conflict_lines env_read_only [] ["b.md"; "c.md"]))
                      (Rejected "EACCES: permission denied"))
                   (events_of run_auto_read_only)) by in_list.
  split; [eexists; exact Hin|].
  destruct (backup_report_write_failure_is_swallowed env_read_only true None []
              plugin_ready _ _ _ _ _ _ (run_parts run_auto_read_only) Hin)
    as (Hr & Hst & _).
  split; assumption.
Defined.

(** No git on the machine: the backup is a failed [init]. *)
Lemma backup_not_ready_run :
  gitReady (plugin_of run_backup_missing_git) = false
  /\ init env_missing_git [] plugin0 = run_backup_missing_git
  /\ same_but_gitManager plugin0 (plugin_of run_backup_missing_git).
Proof.
  assert (Hnot : gitReady (plugin_of run_backup_missing_git) = false) by reflexivity.
  destruct (backup_not_ready_only_initialises env_missing_git true None [] plugin0 _ _ _
              (run_parts run_backup_missing_git) Hnot) as (Hinit & Hsame & _).
  split; [exact Hnot|]. split; [|exact Hsame].
  rewrite Hinit. symmetry. exact (run_parts run_backup_missing_git).
Defined.

Lemma pull_not_ready_run :
  gitReady (plugin_of run_pull_missing_git) = false
  /\ init env_missing_git [] plugin0 = run_pull_missing_git
  /\ same_but_gitManager plugin0 (plugin_of run_pull_missing_git).
Proof.
  assert (Hnot : gitReady (plugin_of run_pull_missing_git) = false) by reflexivity.
  destruct (pull_not_ready_only_initialises env_missing_git [] plugin0 _ _ _
              (run_parts run_pull_missing_git) Hnot) as (Hinit & Hsame & _).
  split; [exact Hnot|]. split; [|exact Hsame].
  rewrite Hinit. symmetry. exact (run_parts run_pull_missing_git).
Defined.

(** A manual backup of a clean repository on a ready plugin. *)
Lemma ready_backup_frame_run :
  gitReady plugin_ready = true
  /\ same_but_state plugin_ready (plugin_of run_delete_resolves).
Proof.
  split; [reflexivity|].
  exact (ready_backup_changes_only_state env_clean false None [] plugin_ready _ _ _
           (run_parts run_delete_resolves) eq_refl).
Defined.

(** An automatic backup over two conflicted files ends [conflicted]. *)
Lemma backup_ends_conflicted_run :
  gitReady (plugin_of run_auto_conflicts) = true
  /\ state (plugin_of run_auto_conflicts) = Some conflicted
  /\ exists text wr, In (EvAdapterWrite conflictOutputFile text wr)
                        (events_of run_auto_conflicts).
Proof.
  split; [reflexivity|].
  destruct (backup_ends_idle_or_reports_conflict env_conflicts true None [] plugin0 _ _
              (run_parts run_auto_conflicts) eq_refl) as [[Hst _] | [Hst Hw]].
  - discriminate Hst.
  - split; [exact Hst | exact Hw].
Defined.

(** A pull that leaves two conflicted files ends [idle]. *)
Lemma ready_pull_run :
  gitReady plugin_ready = true
  /\ same_but_state plugin_ready (plugin_of run_pull_conflicts)
  /\ state (plugin_of run_pull_conflicts) = Some idle.
Proof.
  split; [reflexivity|].
  destruct (ready_pull_ends_idle env_conflicts [] plugin_ready _ _ _
              (run_parts run_pull_conflicts) eq_refl) as [Hsame Hidle].
  split; [exact Hsame | exact (Hidle eq_refl)].
Defined.

(** A backup with [disablePush] set. *)
Lemma backup_push_disabled_run :
  disablePush (settings plugin_local) = true
  /\ never_pushes (events_of run_backup_local)
  /\ never_pulls (events_of run_backup_local).
Proof.
  split; [reflexivity|].
  destruct (backup_push_disabled_stays_local env_clean false None [] plugin_local _ _ _
              (run_parts run_backup_local) eq_refl) as (Hpush & Hpull & _).
  split; assumption.
Defined.

(** A backup whose pull brings three files. *)
Lemma backup_pull_run :
  In (EvPull (Resolved 3)) (events_of run_backup_pulled)
  /\ pullBeforePush (settings plugin_ready) = true
  /\ message_shown (pulled_from_remote_message 3) (events_of run_backup_pulled).
Proof.
  assert (Hin : In (EvPull (Resolved 3)) (events_of run_backup_pulled)) by in_list.
  destruct (backup_pulls_only_before_push env_pulled true None [] plugin_ready _ _ _ _
              (run_parts run_backup_pulled) Hin) as (_ & Hset & Hmsg).
  split; [exact Hin|]. split; [exact Hset|].
  apply (Hmsg 3 eq_refl). reflexivity.
Defined.

(** A backup with a message of the user's. *)
Lemma backup_message_run :
  In (EvCommitAll (Some "notes of today") (Resolved 1)) (events_of run_backup_message)
  /\ message_shown (committed_message 1) (events_of run_backup_message).
Proof.
  assert (Hin : In (EvCommitAll (Some "notes of today") (Resolved 1))
                   (events_of run_backup_message)) by in_list.
  destruct (backup_commits_with_given_message env_clean false (Some "notes of today") []
              plugin_ready _ _ _ _ _ (run_parts run_backup_message) Hin) as (_ & Hmsg).
  split; [exact Hin | exact (Hmsg 1 eq_refl)].
Defined.

Lemma backup_push_run :
  In (EvPush (Resolved 1)) (events_of run_backup_message)
  /\ message_shown (pushed_message 1) (events_of run_backup_message)
  /\ outcome_of run_backup_message = Resolved tt
  /\ state (plugin_of run_backup_message) = Some idle.
Proof.
  assert (Hin : In (EvPush (Resolved 1)) (events_of run_backup_message)) by in_list.
  split; [exact Hin|].
  exact (backup_push_is_reported env_clean false (Some "notes of today") [] plugin_ready
           _ _ _ _ (run_parts run_backup_message) Hin).
Defined.

Lemma auto_backup_deletes_nothing_run :
  ~ In (EvVaultDelete None (Resolved tt)) (events_of run_backup_clean).
Proof.
  exact (auto_backup_deletes_nothing env_clean None [] plugin_ready _ _ _ _ _
           (run_parts run_backup_clean)).
Defined.

(** A backup and a pull on mobile. *)
Lemma mobile_backup_run :
  isMobile plugin_mobile = true
  /\ outcome_of run_backup_mobile = Resolved tt
  /\ forall s, ~ In (EvStatusBarDisplay s) (events_of run_backup_mobile).
Proof.
  split; [reflexivity|]. split; [reflexivity|].
  exact (proj2 (mobile_backup_leaves_status_bar env_clean false None [] plugin_mobile _ _ _
                  (run_parts run_backup_mobile) eq_refl)).
Defined.

Lemma mobile_pull_run :
  isMobile plugin_mobile = true
  /\ outcome_of run_pull_mobile = Resolved tt
  /\ forall s, ~ In (EvStatusBarDisplay s) (events_of run_pull_mobile).
Proof.
  split; [reflexivity|]. split; [reflexivity|].
  exact (proj2 (mobile_pull_leaves_status_bar env_conflicts [] plugin_mobile _ _ _
                  (run_parts run_pull_mobile) eq_refl)).
Defined.

(** Standalone mode over a repository with conflicts. *)
Lemma backup_standalone_run :
  conflict_capable plugin_standalone = false
  /\ forall path text wr,
       ~ In (EvAdapterWrite path text wr) (events_of run_standalone_conflicts).
Proof.
  split; [reflexivity|].
  exact (proj1 (proj2 (backup_without_simple_git_checks_no_conflicts env_conflicts false
                         None [] plugin_standalone _ _ _
                         (run_parts run_standalone_conflicts) eq_refl))).
Defined.

(** Popups switched off, and an automatic backup that finds conflicts. *)
Lemma backup_quiet_run :
  disablePopups (settings plugin_quiet) = true
  /\ In (EvNotice (did_not_commit_error two_conflicts)) (events_of run_backup_quiet)
  /\ backup_error (did_not_commit_error two_conflicts).
Proof.
  assert (Hin : In (EvNotice (did_not_commit_error two_conflicts))
                   (events_of run_backup_quiet)) by in_list.
  split; [reflexivity|]. split; [exact Hin|].
  destruct (backup_popups_disabled_only_errors env_conflicts true None [] plugin_quiet
              _ _ _ _ (run_parts run_backup_quiet) eq_refl Hin) as [Hinit | Hbackup].
  - exfalso. cbv in Hinit. repeat destruct Hinit as [Hinit | Hinit]; try discriminate Hinit.
    exact Hinit.
  - exact Hbackup.
Defined.

Lemma ready_backup_run :
  gitReady plugin_ready = true
  /\ forall c, ~ In (EvCheckRequirements c) (events_of run_backup_clean).
Proof.
  split; [reflexivity|].
  exact (proj1 (proj2 (ready_backup_never_reinitialises env_clean true None [] plugin_ready
                         _ _ _ (run_parts run_backup_clean) eq_refl))).
Defined.

Lemma pull_only_pulls_run :
  never_commits (events_of run_pull_three) /\ never_pushes (events_of run_pull_three).
Proof.
  destruct (pull_only_pulls env_pulled [] plugin_ready _ _ _ (run_parts run_pull_three))
    as (Hc & Hp & _).
  split; assumption.
Defined.

(** Two conflicted paths handed to [handleConflict]. *)
Lemma handleConflict_run :
  outcome_of run_handle_conflict = Resolved tt
  /\ plugin_of run_handle_conflict = set_state conflicted plugin_ready
  /\ exists wr,
       In (EvAdapterWrite conflictOutputFile
             (report_text ["- Not a file: b.md"; "- Not a file: c.md"]) wr)
          (events_of run_handle_conflict).
Proof.
  destruct (handleConflict_writes_one_report env_conflicts ["b.md"; "c.md"] [] plugin_ready
              _ _ _ (run_parts run_handle_conflict))
    as (Hr & Hp & wr & bullets & opened & Hevs & Hb & _).
  split; [exact Hr|]. split; [exact Hp|]. exists wr.
  rewrite Hevs.
  rewrite (report_bullets_without_files env_conflicts _ _ _ (fun _ => eq_refl) Hb).
  apply in_or_app. right. left. reflexivity.
Defined.

(** A leaf titled "conflict", which is not the report, keeps it closed. *)
Lemma report_not_opened_run :
  In (EvAdapterWrite conflictOutputFile "# Conflict files" (Resolved tt))
     (events_of run_write_report)
  /\ ~ In (EvOpenLinkText conflictOutputFile "/" true) (events_of run_write_report).
Proof.
  assert (Hin : In (EvAdapterWrite conflictOutputFile "# Conflict files" (Resolved tt))
                   (events_of run_write_report)) by in_list.
  split; [exact Hin|].
  destruct (report_opened_unless_leaf_matches env_leaf_conflict "# Conflict files" []
              plugin_ready _ _ _ (run_parts run_write_report) Hin) as (_ & _ & Hiff).
  intros Hopen.
  destruct (proj1 Hiff Hopen "conflict" (or_introl eq_refl)) as [H|H]; discriminate H.
Defined.

(** The command on a plugin that is not ready yet, in a valid repository
    with one changed file. *)
Lemma list_changed_files_run :
  outcome_of run_list_changed = Resolved (Some ["a.md"])
  /\ enqueue_waits plugin0
  /\ gitReady (plugin_of run_list_changed) = true.
Proof.
  assert (Hw : enqueue_waits plugin0) by (left; reflexivity).
  split; [reflexivity|]. split; [exact Hw|].
  exact (proj1 (list_changed_files_shows_status env_clean [] plugin0 ["a.md"] _ _
                  (run_parts run_list_changed) (or_intror Hw))).
Defined.

Lemma list_changed_files_reads_run :
  enqueue_waits plugin0
  /\ never_commits (events_of run_list_changed)
  /\ never_pulls (events_of run_list_changed).
Proof.
  assert (Hw : enqueue_waits plugin0) by (left; reflexivity).
  destruct (list_changed_files_only_reads env_clean [] plugin0 _ _ _
              (run_parts run_list_changed) (or_intror Hw)) as (Hc & _ & Hp & _).
  split; [exact Hw|]. split; assumption.
Defined.

(** A pull that leaves two conflicted files behind. *)
Lemma pull_two_conflicts_run :
  In (EvStatus PostPullCheck (Resolved two_conflicts)) (events_of run_pull_conflicts)
  /\ conflicted_files two_conflicts <> []
  /\ In (EvNotice "You have 2 conflict files") (events_of run_pull_conflicts)
  /\ state (plugin_of run_pull_conflicts) = Some idle.
Proof.
  assert (Hin : In (EvStatus PostPullCheck (Resolved two_conflicts))
                   (events_of run_pull_conflicts)) by in_list.
  assert (Hne : conflicted_files two_conflicts <> []) by discriminate.
  assert (Hlit : conflict_count_error two_conflicts = "You have 2 conflict files")
    by (vm_compute; reflexivity).
  destruct (pull_conflicts_not_escalated env_conflicts [] plugin_ready _ _ _ _
              (run_parts run_pull_conflicts) Hin Hne) as ([Hn _] & _ & _ & _ & Hstate).
  split; [exact Hin|]. split; [exact Hne|].
  split; [rewrite <- Hlit; exact Hn | exact Hstate].
Defined.



(** A manual backup with no old report: the deletion is tried on the
    null handle, and when it resolves the status is asked for. *)
Lemma manual_backup_deletes_null_run :
  gitReady (plugin_of run_delete_resolves) = true
  /\ env_getAbstractFileByPath env_clean [] conflictOutputFile = None
  /\ exists c rest,
       events_of run_delete_resolves = EvVaultDelete None c :: rest.
Proof.
  assert (Hready : gitReady (plugin_of run_delete_resolves) = true) by reflexivity.
  assert (Hinv : gitReady plugin_ready = true -> gitManager plugin_ready <> None)
    by discriminate.
  split; [exact Hready|]. split; [reflexivity|].
  destruct (manual_backup_deletes_looked_up_report env_clean None [] plugin_ready _ _ _
              (run_parts run_delete_resolves) Hready Hinv)
    as (pre & c & rest & Hevs & Hpre & _).
  rewrite (Hpre eq_refl) in Hevs. exists c, rest. exact Hevs.
Defined.

End MoreRuns.
